(** * Sentinel HG: a shallow embedding of the classification pipeline

    The development follows the TypeScript sources of the extension:
    - [model-config.ts]   : model table and [preprocessText];
    - [background.ts]     : [BackgroundServiceWorker] (classification engine
                            and request handler);
    - [feedback.ts]       : [FeedbackManager] (feedback log and statistics);
    - [content.ts]        : [ContentScript] (extraction and dispatch).

    Conventions.  A JavaScript string is a [string] whose characters are code
    units below 256.  A JavaScript number that carries a score is an exact
    rational ([Q]); counters and lengths are natural numbers.  Code that can
    throw returns an [outcome]; browser storage is a store threaded through a
    small state-and-exception monad. *)

From stdpp Require Import gmap strings list.
From Stdlib Require Import Ascii ZArith QArith Qround Qminmax Lia Lqa.
From Stdlib Require String.
From Stdlib Require Import DecimalString.

Local Open Scope bool_scope.

(** ** JavaScript strings *)

Module JsString.

(** The characters matched by [\s] in a regular expression and removed by
    [String.prototype.trim], among code units below 256: TAB, LF, VT, FF,
    CR, SPACE and NBSP. *)
Definition is_space (c : ascii) : bool :=
  let n := nat_of_ascii c in
  ((9 <=? n)%nat && (n <=? 13)%nat) || (n =? 32)%nat || (n =? 160)%nat.

(** [s.trimStart()] *)
Fixpoint trimStart (s : string) : string :=
  match s with
  | EmptyString => EmptyString
  | String c s' => if is_space c then trimStart s' else s
  end.

(** [s.trimEnd()] *)
Fixpoint trimEnd (s : string) : string :=
  match s with
  | EmptyString => EmptyString
  | String c s' =>
      match trimEnd s' with
      | EmptyString => if is_space c then EmptyString else String c EmptyString
      | r => String c r
      end
  end.

(** [s.trim()] *)
Definition trim (s : string) : string := trimEnd (trimStart s).

(** [s.toLowerCase()] on the letters A-Z; the other code units of the model
    have no lower-case form except the Latin-1 capitals, which the labels of
    the model table do not use. *)
Definition lower (c : ascii) : ascii :=
  let n := nat_of_ascii c in
  if (65 <=? n)%nat && (n <=? 90)%nat then ascii_of_nat (n + 32) else c.

Fixpoint toLowerCase (s : string) : string :=
  match s with
  | EmptyString => EmptyString
  | String c s' => String (lower c) (toLowerCase s')
  end.

(** [s.includes(p)] *)
Fixpoint includes (s p : string) : bool :=
  String.prefix p s ||
  match s with
  | EmptyString => false
  | String _ s' => includes s' p
  end.

(** First and last character tests used by the statements below. *)
Definition starts_with_space (s : string) : bool :=
  match s with
  | EmptyString => false
  | String c _ => is_space c
  end.

Fixpoint ends_with_space (s : string) : bool :=
  match s with
  | EmptyString => false
  | String c EmptyString => is_space c
  | String _ s' => ends_with_space s'
  end.

(** Two adjacent whitespace characters somewhere in [s]. *)
Fixpoint has_space_run (s : string) : bool :=
  match s with
  | EmptyString => false
  | String c s' => (is_space c && starts_with_space s') || has_space_run s'
  end.

End JsString.

(** ** model-config.ts *)

Module ModelConfig.
Import JsString.

Inductive Task := text_classification | sentiment_analysis.

Record Labels := { hateful : list string; normal : list string }.

Record ModelConfig := {
  name : string;
  description : string;
  modelId : string;
  task : Task;
  labels : Labels;
  confidenceThreshold : Q;
  maxTextLength : nat
}.

Definition HATE_SPEECH_MODELS : list ModelConfig :=
  [ {| name := "Twitter Hate Speech Detector";
       description := "RoBERTa model fine-tuned for Twitter hate speech detection - AI-only classification";
       modelId := "cardiffnlp/twitter-roberta-base-hate";
       task := text_classification;
       labels := {| hateful := ["hate"; "offensive"];
                    normal := ["normal"; "not-hate"; "not-offensive"] |};
       confidenceThreshold := 7 # 10;
       maxTextLength := 512 |};
    {| name := "Toxic Comment Classifier";
       description := "BERT model for toxic comment classification - AI-only classification";
       modelId := "unitary/toxic-bert";
       task := text_classification;
       labels := {| hateful := ["toxic"; "severe_toxic"; "obscene"; "threat"; "insult"; "identity_hate"];
                    normal := ["not-toxic"; "not-severe_toxic"; "not-obscene"; "not-threat"; "not-insult"; "not-identity_hate"] |};
       confidenceThreshold := 7 # 10;
       maxTextLength := 512 |};
    {| name := "Hate Speech Detector";
       description := "Facebook RoBERTa model for hate speech detection - AI-only classification";
       modelId := "facebook/roberta-hate-speech-detector";
       task := text_classification;
       labels := {| hateful := ["hate"; "offensive"];
                    normal := ["normal"; "not-hate"; "not-offensive"] |};
       confidenceThreshold := 7 # 10;
       maxTextLength := 512 |} ].

(** [HATE_SPEECH_MODELS[0]] *)
Definition DEFAULT_MODEL : ModelConfig := Eval cbv in
    match HATE_SPEECH_MODELS with
    | m :: _ => m
    | [] => {| name := ""; description := ""; modelId := ""; task := text_classification;
               labels := {| hateful := []; normal := [] |};
               confidenceThreshold := 0; maxTextLength := 0 |}
    end.

Record TextPreprocessing := {
  maxLength : nat;
  truncation : bool;
  removeUrls : bool;
  removeEmojis : bool;
  normalizeWhitespace : bool;
  preserveContext : bool
}.

Definition TEXT_PREPROCESSING : TextPreprocessing :=
  {| maxLength := 512;
     truncation := true;
     removeUrls := true;
     removeEmojis := false;
     normalizeWhitespace := true;
     preserveContext := true |}.

(** The regular expression [/https?:\/\/[^\s]+/] anchored at the start of
    [s]: the literal [p], then at least one character that is not
    whitespace. *)
Fixpoint match_after (p s : string) : bool :=
  match p with
  | EmptyString =>
      match s with
      | EmptyString => false
      | String c _ => negb (is_space c)
      end
  | String a p' =>
      match s with
      | EmptyString => false
      | String c s' => Ascii.eqb a c && match_after p' s'
      end
  end.

Definition url_at (s : string) : bool :=
  match_after "https://" s || match_after "http://" s.

(** A match of the expression somewhere in [s]. *)
Fixpoint has_url (s : string) : bool :=
  url_at s ||
  match s with
  | EmptyString => false
  | String _ s' => has_url s'
  end.

(** [s.replace(/https?:\/\/[^\s]+/g, '')].  The scan goes left to right;
    a match starts where [url_at] holds and, [[^\s]+] being greedy and the
    literal free of whitespace, runs to the next whitespace character or to
    the end of the string.  [inMatch] tells that the scan is inside a
    match, whose characters are dropped. *)
Fixpoint replaceUrls (inMatch : bool) (s : string) : string :=
  match s with
  | EmptyString => EmptyString
  | String c s' =>
      if inMatch then
        if is_space c then String c (replaceUrls false s') else replaceUrls true s'
      else if url_at s then replaceUrls true s'
      else String c (replaceUrls false s')
  end.

(** [s.replace(/\s+/g, ' ')]: every maximal run of whitespace becomes one
    space.  [inRun] tells that the scan is inside a run already replaced. *)
Fixpoint replaceSpaces (inRun : bool) (s : string) : string :=
  match s with
  | EmptyString => EmptyString
  | String c s' =>
      if is_space c then
        if inRun then replaceSpaces true s' else String " "%char (replaceSpaces true s')
      else String c (replaceSpaces false s')
  end.

Definition preprocessText (text : string) : string :=
  let processed := text in
  let processed :=
    if removeUrls TEXT_PREPROCESSING then replaceUrls false processed else processed in
  let processed :=
    if normalizeWhitespace TEXT_PREPROCESSING
    then trim (replaceSpaces false processed) else processed in
  let processed :=
    if negb (maxLength TEXT_PREPROCESSING =? 0)%nat
       && (maxLength TEXT_PREPROCESSING <? String.length processed)%nat
    then String.substring 0 (maxLength TEXT_PREPROCESSING) processed
    else processed in
  processed.

End ModelConfig.

(** ** Values shared by the background worker and the feedback store *)

Module Data.

(** ['hateful' | 'normal'] *)
Inductive Label := label_hateful | label_normal.

Inductive Method := ai.

(** [interface ClassificationResult] *)
Record ClassificationResult := {
  label : Label;
  confidence : Q;
  keywords : list string;
  explanation : string;
  method : Method
}.

(** ['false_positive' | 'false_negative' | 'correct'] *)
Inductive FeedbackType := false_positive | false_negative | correct.

Record UserFeedback := {
  type : FeedbackType;
  reason : option string;
  category : option string
}.

Record PageContext := { url : string; elementType : string; pageTitle : string }.

Record Metadata := {
  modelUsed : string;
  confidenceThreshold : Q;
  extensionVersion : string
}.

(** [Omit<FeedbackData, 'id' | 'timestamp'>] *)
Record FeedbackInput := {
  originalText : string;
  classification : ClassificationResult;
  userFeedback : UserFeedback;
  context : PageContext;
  metadata : Metadata
}.

(** [interface FeedbackData] *)
Record FeedbackData := {
  id : string;
  timestamp : N;
  entry : FeedbackInput
}.

(** [interface FeedbackStats] *)
Record FeedbackStats := {
  totalFeedback : nat;
  falsePositives : nat;
  falseNegatives : nat;
  correctClassifications : nat;
  accuracy : Q;
  recentFeedback : list FeedbackData
}.

(** An entry of [recentDetections]. *)
Record Detection := {
  detection_id : string;
  detection_text : string;
  detection_confidence : Q;
  detection_timestamp : N;
  detection_keywords : list string
}.

(** The [stats] object of the side panel. *)
Record DetectionStats := { detected : nat; filtered : nat }.

End Data.

(** ** The browser runtime seen by the background context *)

Module Chrome.
Import Data.

(** The keys of [chrome.storage.local] that the sources use; [None] is an
    absent key. *)
Record LocalStorage := {
  stats : option DetectionStats;
  recentDetections : option (list Detection);
  sentinel_hg_feedback : option (list FeedbackData);
  sentinel_hg_feedback_stats : option FeedbackStats
}.

Definition empty_storage : LocalStorage :=
  {| stats := None; recentDetections := None;
     sentinel_hg_feedback := None; sentinel_hg_feedback_stats := None |}.

(** What the code can observe of its environment.  [faults] decides the
    coming storage calls in order: [Some e] makes the call reject with the
    error [e], [None] lets it through, and past the end of the list every
    call goes through.  [clock] is the value of [Date.now()], [randoms]
    the coming values of [Math.random().toString(36)].  [broadcasts] and
    [inferences] record the messages sent with [chrome.runtime.sendMessage]
    and the texts handed to the model. *)
Record World := {
  local : LocalStorage;
  faults : list (option string);
  clock : N;
  randoms : list string;
  broadcasts : list string;
  inferences : list string
}.

Definition with_local (w : World) (l : LocalStorage) : World :=
  {| local := l; faults := faults w; clock := clock w; randoms := randoms w;
     broadcasts := broadcasts w; inferences := inferences w |}.

Definition with_faults (w : World) (f : list (option string)) : World :=
  {| local := local w; faults := f; clock := clock w; randoms := randoms w;
     broadcasts := broadcasts w; inferences := inferences w |}.

Definition with_inference (w : World) (processedText : string) : World :=
  {| local := local w; faults := faults w; clock := clock w; randoms := randoms w;
     broadcasts := broadcasts w; inferences := inferences w ++ [processedText] |}.

(** A call either returns a value or throws an error (its message). *)
Inductive outcome (A : Type) : Type :=
| Returned (a : A)
| Thrown (e : string).
Arguments Returned {A} a.
Arguments Thrown {A} e.

(** Computations of the background context: state and exceptions. *)
Definition M (A : Type) : Type := World -> outcome A * World.

Definition ret {A} (a : A) : M A := fun w => (Returned a, w).

Definition throw {A} (e : string) : M A := fun w => (Thrown e, w).

Definition bind {A B} (m : M A) (k : A -> M B) : M B :=
  fun w =>
    match m w with
    | (Returned a, w') => k a w'
    | (Thrown e, w') => (Thrown e, w')
    end.

(** [try { m } catch (error) { handler(error) }] *)
Definition try_catch {A} (m : M A) (handler : string -> M A) : M A :=
  fun w =>
    match m w with
    | (Returned a, w') => (Returned a, w')
    | (Thrown e, w') => handler e w'
    end.

(** One call of the storage API: the next fault decides whether it rejects;
    a rejected call leaves the store as it was. *)
Definition storage_call {A} (f : LocalStorage -> A * LocalStorage) : M A :=
  fun w =>
    match faults w with
    | Some e :: rest => (Thrown e, with_faults w rest)
    | None :: rest =>
        let (a, l) := f (local w) in (Returned a, with_local (with_faults w rest) l)
    | [] =>
        let (a, l) := f (local w) in (Returned a, with_local w l)
    end.

(** [chrome.storage.local.get(keys)]: the code reads only the keys it asked
    for, so the whole store stands for the result object. *)
Definition storage_local_get : M LocalStorage :=
  storage_call (fun l => (l, l)).

(** [chrome.storage.local.set(items)], [items] given as its effect. *)
Definition storage_local_set (items : LocalStorage -> LocalStorage) : M unit :=
  storage_call (fun l => (tt, items l)).

(** [chrome.storage.local.remove(keys)], [keys] given as their effect. *)
Definition storage_local_remove (keys : LocalStorage -> LocalStorage) : M unit :=
  storage_call (fun l => (tt, keys l)).

Definition Date_now : M N := fun w => (Returned (clock w), w).

(** [Math.random().toString(36)]; a run of draws that ended yields the
    draw 0, printed ["0"]. *)
Definition Math_random_toString36 : M string :=
  fun w =>
    match randoms w with
    | r :: rest =>
        (Returned r,
         {| local := local w; faults := faults w; clock := clock w; randoms := rest;
            broadcasts := broadcasts w; inferences := inferences w |})
    | [] => (Returned "0", w)
    end.

(** [chrome.runtime.sendMessage({ action })] without a response callback. *)
Definition runtime_sendMessage (action : string) : M unit :=
  fun w =>
    (Returned tt,
     {| local := local w; faults := faults w; clock := clock w; randoms := randoms w;
        broadcasts := broadcasts w ++ [action]; inferences := inferences w |}).

(** The decimal text of a number inside a template literal. *)
Definition decimal (n : N) : string := NilZero.string_of_uint (N.to_uint n).

(** The synced partition [chrome.storage.sync] with the keys that the
    worker uses, and the faults that decide its coming calls, as [faults]
    does for the local partition. *)
Record SyncStorage := {
  sync_enabled : option bool;
  sync_confidence : option Q;
  sync_selectedModel : option string
}.

Record SyncWorld := {
  sync : SyncStorage;
  sync_faults : list (option string)
}.

(** One call of the synced storage API. *)
Definition sync_call {A} (f : SyncStorage -> A * SyncStorage) (s : SyncWorld)
  : outcome A * SyncWorld :=
  match sync_faults s with
  | Some e :: rest => (Thrown e, {| sync := sync s; sync_faults := rest |})
  | None :: rest =>
      let (a, store) := f (sync s) in (Returned a, {| sync := store; sync_faults := rest |})
  | [] =>
      let (a, store) := f (sync s) in (Returned a, {| sync := store; sync_faults := [] |})
  end.

(** [chrome.storage.sync.get(keys)] and [chrome.storage.sync.set(items)] *)
Definition storage_sync_get (s : SyncWorld) : outcome SyncStorage * SyncWorld :=
  sync_call (fun store => (store, store)) s.

Definition storage_sync_set (items : SyncStorage) (s : SyncWorld) : outcome unit * SyncWorld :=
  sync_call (fun _ => (tt, items)) s.

End Chrome.

Notation "'let*' x ':=' m 'in' k" := (Chrome.bind m (fun x => k))
  (at level 10, x name, m at level 100, k at level 200).

(** ** feedback.ts *)

Module FeedbackManager.
Import Data Chrome.

(** The cap of the feedback log and the length of [recentFeedback]. *)
Definition LOG_CAP : nat := 1000.
Definition RECENT_CAP : nat := 50.

Definition getDefaultStats : FeedbackStats :=
  {| totalFeedback := 0;
     falsePositives := 0;
     falseNegatives := 0;
     correctClassifications := 0;
     accuracy := 0;
     recentFeedback := [] |}.

(** [`feedback-${Date.now()}-${Math.random().toString(36).substr(2, 9)}`] *)
Definition generateId : M string :=
  let* now := Date_now in
  let* r := Math_random_toString36 in
  ret (String.append "feedback-"
         (String.append (decimal now) (String.append "-" (String.substring 2 9 r)))).

Definition getFeedbackStats : M FeedbackStats :=
  try_catch
    (let* result := storage_local_get in
     let stats := default getDefaultStats (sentinel_hg_feedback_stats result) in
     let recent := default [] (sentinel_hg_feedback result) in
     ret {| totalFeedback := totalFeedback stats;
            falsePositives := falsePositives stats;
            falseNegatives := falseNegatives stats;
            correctClassifications := correctClassifications stats;
            accuracy := accuracy stats;
            recentFeedback := take RECENT_CAP recent |})
    (fun _ => ret getDefaultStats).

Definition getAllFeedback : M (list FeedbackData) :=
  try_catch
    (let* result := storage_local_get in
     ret (default [] (sentinel_hg_feedback result)))
    (fun _ => ret []).

(** The counters of [currentStats] after the increment of [totalFeedback]
    and the [switch] on the feedback type. *)
Definition count (t : FeedbackType) (s : FeedbackStats) : FeedbackStats :=
  let total := S (totalFeedback s) in
  match t with
  | false_positive =>
      {| totalFeedback := total; falsePositives := S (falsePositives s);
         falseNegatives := falseNegatives s;
         correctClassifications := correctClassifications s;
         accuracy := accuracy s; recentFeedback := recentFeedback s |}
  | false_negative =>
      {| totalFeedback := total; falsePositives := falsePositives s;
         falseNegatives := S (falseNegatives s);
         correctClassifications := correctClassifications s;
         accuracy := accuracy s; recentFeedback := recentFeedback s |}
  | correct =>
      {| totalFeedback := total; falsePositives := falsePositives s;
         falseNegatives := falseNegatives s;
         correctClassifications := S (correctClassifications s);
         accuracy := accuracy s; recentFeedback := recentFeedback s |}
  end.

(** The assignment to [currentStats.accuracy]. *)
Definition recompute (s : FeedbackStats) : FeedbackStats :=
  let totalClassified :=
    (falsePositives s + falseNegatives s + correctClassifications s)%nat in
  {| totalFeedback := totalFeedback s; falsePositives := falsePositives s;
     falseNegatives := falseNegatives s;
     correctClassifications := correctClassifications s;
     accuracy :=
       if (0 <? totalClassified)%nat
       then inject_Z (Z.of_nat (correctClassifications s))
            / inject_Z (Z.of_nat totalClassified)
       else 0;
     recentFeedback := recentFeedback s |}.

Definition set_feedback_stats (s : FeedbackStats) (l : LocalStorage) : LocalStorage :=
  {| stats := stats l; recentDetections := recentDetections l;
     sentinel_hg_feedback := sentinel_hg_feedback l;
     sentinel_hg_feedback_stats := Some s |}.

Definition set_feedback (f : list FeedbackData) (l : LocalStorage) : LocalStorage :=
  {| stats := stats l; recentDetections := recentDetections l;
     sentinel_hg_feedback := Some f;
     sentinel_hg_feedback_stats := sentinel_hg_feedback_stats l |}.

Definition remove_feedback (l : LocalStorage) : LocalStorage :=
  {| stats := stats l; recentDetections := recentDetections l;
     sentinel_hg_feedback := None;
     sentinel_hg_feedback_stats := None |}.

Definition updateStats (newFeedback : FeedbackData) : M unit :=
  try_catch
    (let* currentStats := getFeedbackStats in
     let currentStats := count (type (userFeedback (entry newFeedback))) currentStats in
     let currentStats := recompute currentStats in
     storage_local_set (set_feedback_stats currentStats))
    (fun _ => ret tt).

Definition submitFeedback (feedback : FeedbackInput) : M unit :=
  try_catch
    (let* newId := generateId in
     let* now := Date_now in
     let feedbackData := {| id := newId; timestamp := now; entry := feedback |} in
     let* result := storage_local_get in
     let existingFeedback := default [] (sentinel_hg_feedback result) in
     let updatedFeedback := take LOG_CAP (feedbackData :: existingFeedback) in
     let* _ := storage_local_set (set_feedback updatedFeedback) in
     updateStats feedbackData)
    (fun error => throw error).

Definition clearFeedback : M unit :=
  try_catch
    (storage_local_remove remove_feedback)
    (fun error => throw error).

(** The object that [exportFeedback] serialises.  The method returns
    [JSON.stringify(exportData, null, 2)]; [JSON.parse] of that text gives
    this value back, so the value stands for the text.  [exportDate] is the
    instant that [toISOString] prints. *)
Record ExportData := {
  exportDate : N;
  export_stats : FeedbackStats;
  export_feedback : list FeedbackData
}.

Definition exportFeedback : M ExportData :=
  try_catch
    (let* feedback := getAllFeedback in
     let* stats := getFeedbackStats in
     let* now := Date_now in
     ret {| exportDate := now; export_stats := stats; export_feedback := feedback |})
    (fun error => throw error).

(** Calls made one after the other, each awaited; the first one that
    throws ends the run. *)
Fixpoint submitAll (feedbacks : list FeedbackInput) : M unit :=
  match feedbacks with
  | [] => ret tt
  | f :: rest => let* _ := submitFeedback f in submitAll rest
  end.

End FeedbackManager.

(** ** background.ts *)

Module BackgroundServiceWorker.
Import JsString ModelConfig Data Chrome.

Record ExtensionSettings := {
  enabled : bool;
  confidence : Q;
  selectedModel : string
}.

(** One element of the model's answer, [{ label, score }]; either property
    may be absent. *)
Record Prediction := { rawLabel : option string; score : option Q }.

(** What [await this.classifier(processedText)] evaluates to: an array of
    predictions, one prediction object, or some other value. *)
Inductive ModelOutput :=
| OutputArray (predictions : list Prediction)
| OutputObject (prediction : Prediction)
| OutputOther.

(** The loaded pipeline: the opaque function from text to scored labels;
    a call may throw. *)
Definition Classifier : Type := string -> outcome ModelOutput.

(** The fields of the worker. *)
Record Worker := {
  settings : ExtensionSettings;
  classifier : option Classifier;
  isModelLoaded : bool;
  isModelLoading : bool
}.

Definition initial : Worker :=
  {| settings := {| enabled := true; confidence := 7 # 10;
                    selectedModel := modelId DEFAULT_MODEL |};
     classifier := None;
     isModelLoaded := false;
     isModelLoading := false |}.

(** The worker after [loadAIModel] has run to its end; [pipeline] is the
    library call that fetches the model and may throw. *)
Definition loadAIModel (pipeline : string -> outcome Classifier) (this : Worker) : Worker :=
  if isModelLoading this || isModelLoaded this then this
  else
    match pipeline (selectedModel (settings this)) with
    | Returned c =>
        {| settings := settings this; classifier := Some c;
           isModelLoaded := true; isModelLoading := false |}
    | Thrown _ =>
        {| settings := settings this; classifier := classifier this;
           isModelLoaded := false; isModelLoading := false |}
    end.

(** [this.settings.confidence = t], as [handleSettingsUpdate] does with a
    message that carries only the threshold. *)
Definition with_confidence (this : Worker) (t : Q) : Worker :=
  {| settings := {| enabled := enabled (settings this); confidence := t;
                    selectedModel := selectedModel (settings this) |};
     classifier := classifier this;
     isModelLoaded := isModelLoaded this;
     isModelLoading := isModelLoading this |}.

Definition getCurrentModelConfig (this : Worker) : ModelConfig :=
  default DEFAULT_MODEL
    (List.find (fun model => String.eqb (modelId model) (selectedModel (settings this)))
       HATE_SPEECH_MODELS).

(** [x > y] and [x >= y] on scores. *)
Definition Qgtb (x y : Q) : bool := negb (Qle_bool x y).
Definition Qgeb (x y : Q) : bool := Qle_bool y x.

(** [labels.some(l => label.includes(l))] *)
Definition some_included (labels : list string) (label : string) : bool :=
  existsb (fun l => includes label l) labels.

(** The three local variables of [classifyWithAI]: [maxConfidence],
    [detectedLabel] and [isHateful]. *)
Record Locals := {
  maxConfidence : Q;
  detectedLabel : string;
  isHateful : bool
}.

Definition start : Locals :=
  {| maxConfidence := 0; detectedLabel := "normal"; isHateful := false |}.

(** [classification.label?.toLowerCase() || ''] and
    [classification.score || 0] *)
Definition label_of (classification : Prediction) : string :=
  default "" (toLowerCase <$> rawLabel classification).
Definition score_of (classification : Prediction) : Q :=
  default 0 (score classification).

(** The body of the [for] loop over an array answer. *)
Definition visit (modelConfig : ModelConfig) (v : Locals) (classification : Prediction)
  : Locals :=
  let label := label_of classification in
  let confidence := score_of classification in
  let v :=
    if some_included (hateful (labels modelConfig)) label then
      if Qgtb confidence (maxConfidence v)
      then {| maxConfidence := confidence; detectedLabel := label; isHateful := true |}
      else v
    else v in
  if some_included (normal (labels modelConfig)) label then
    if Qgtb confidence (maxConfidence v) && negb (isHateful v)
    then {| maxConfidence := confidence; detectedLabel := label; isHateful := false |}
    else v
  else v.

(** The branch for an answer that is one object. *)
Definition single (modelConfig : ModelConfig) (result : Prediction) : Locals :=
  let label := label_of result in
  let confidence := score_of result in
  if some_included (hateful (labels modelConfig)) label
  then {| maxConfidence := confidence; detectedLabel := label; isHateful := true |}
  else {| maxConfidence := confidence; detectedLabel := label; isHateful := false |}.

Definition judge (modelConfig : ModelConfig) (result : ModelOutput) : Locals :=
  match result with
  | OutputArray predictions => fold_left (visit modelConfig) predictions start
  | OutputObject prediction => single modelConfig prediction
  | OutputOther => start
  end.

(** [extractKeywords]: the most frequent words of the text. *)

(** [text.split(/\s+/)]; [cur] is the piece being read, [inRun] tells that
    the scan is inside a separator. *)
Fixpoint split_spaces (cur : string) (inRun : bool) (s : string) : list string :=
  match s with
  | EmptyString => [cur]
  | String c s' =>
      if is_space c then
        if inRun then split_spaces EmptyString true s'
        else cur :: split_spaces EmptyString true s'
      else split_spaces (String.append cur (String c EmptyString)) false s'
  end.

(** [\w] *)
Definition is_word_char (c : ascii) : bool :=
  let n := nat_of_ascii c in
  ((48 <=? n)%nat && (n <=? 57)%nat) || ((65 <=? n)%nat && (n <=? 90)%nat)
  || ((97 <=? n)%nat && (n <=? 122)%nat) || (n =? 95)%nat.

(** [word.replace(/[^\w]/g, '')] *)
Fixpoint clean (word : string) : string :=
  match word with
  | EmptyString => EmptyString
  | String c s' => if is_word_char c then String c (clean s') else clean s'
  end.

Definition commonWords : list string :=
  [ "the"; "a"; "an"; "and"; "or"; "but"; "in"; "on"; "at"; "to"; "for"; "of"; "with"; "by";
    "is"; "are"; "was"; "were"; "be"; "been"; "being"; "have"; "has"; "had"; "do"; "does"; "did";
    "will"; "would"; "could"; "should"; "may"; "might"; "can"; "this"; "that"; "these"; "those";
    "i"; "you"; "he"; "she"; "it"; "we"; "they"; "me"; "him"; "her"; "us"; "them";
    "my"; "your"; "his"; "her"; "its"; "our"; "their"; "mine"; "yours"; "hers"; "ours"; "theirs" ].

(** [wordCount.set(w, (wordCount.get(w) || 0) + 1)] on a map that keeps its
    keys in insertion order. *)
Fixpoint bump (w : string) (wordCount : list (string * nat)) : list (string * nat) :=
  match wordCount with
  | [] => [(w, 1%nat)]
  | (k, n) :: rest =>
      if String.eqb k w then (k, S n) :: rest else (k, n) :: bump w rest
  end.

(** [entries.sort((a, b) => b[1] - a[1])], a stable sort. *)
Fixpoint insert_entry (a : string * nat) (sorted : list (string * nat))
  : list (string * nat) :=
  match sorted with
  | [] => [a]
  | b :: rest =>
      if (a.2 <? b.2)%nat then b :: insert_entry a rest else a :: sorted
  end.

Definition sort_entries (entries : list (string * nat)) : list (string * nat) :=
  fold_right insert_entry [] entries.

Definition extractKeywords (text : string) : list string :=
  let words := split_spaces EmptyString false (toLowerCase text) in
  let wordCount :=
    fold_left
      (fun wordCount word =>
         let cleanWord := clean word in
         if (3 <? String.length cleanWord)%nat
            && negb (existsb (String.eqb cleanWord) commonWords)
         then bump cleanWord wordCount else wordCount)
      words [] in
  map fst (take 5 (sort_entries wordCount)).

(** [Math.round(maxConfidence * 100)] printed in a template literal; the
    product is the exact one. *)
Definition percent (maxConfidence : Q) : string :=
  NilZero.string_of_int (Z.to_int (Qfloor (maxConfidence * 100 + (1 # 2)))).

Definition unavailable : ClassificationResult :=
  {| label := label_normal;
     Data.confidence := 1 # 2;
     keywords := [];
     explanation := "AI model not available - defaulting to normal classification";
     method := ai |}.

(** [await this.classifier(processedText)]: calling [null] throws. *)
Definition infer (this : Worker) (processedText : string) : M ModelOutput :=
  fun w =>
    match classifier this with
    | None => (Thrown "this.classifier is not a function", w)
    | Some model => (model processedText, with_inference w processedText)
    end.

(** The two [return] statements that end the [try] block of
    [classifyWithAI]. *)
Definition conclude (this : Worker) (modelConfig : ModelConfig) (processedText : string)
    (v : Locals) : ClassificationResult :=
  if isHateful v && Qgeb (maxConfidence v) (confidence (settings this)) then
    {| label := label_hateful;
       Data.confidence := Qmin (95 # 100) (maxConfidence v);
       keywords := extractKeywords processedText;
       explanation :=
         String.concat ""
           [ "AI model detected "; detectedLabel v; " content with ";
             percent (maxConfidence v); "% confidence using "; name modelConfig ];
       method := ai |}
  else
    {| label := label_normal;
       Data.confidence := Qmax (1 # 2) (maxConfidence v);
       keywords := [];
       explanation :=
         String.concat ""
           [ "AI model classified as "; detectedLabel v; " content with ";
             percent (maxConfidence v); "% confidence using "; name modelConfig ];
       method := ai |}.

(** [null] is [None]. *)
Definition classifyWithAI (this : Worker) (text : string) : M (option ClassificationResult) :=
  try_catch
    (let processedText := preprocessText text in
     let* result := infer this processedText in
     let modelConfig := getCurrentModelConfig this in
     ret (Some (conclude this modelConfig processedText (judge modelConfig result))))
    (fun _ => ret None).

Definition classifyText (this : Worker) (text : string) : M ClassificationResult :=
  let* aiResult :=
    if isModelLoaded this && bool_decide (is_Some (classifier this))
    then try_catch (classifyWithAI this text) (fun _ => ret None)
    else ret None in
  match aiResult with
  | Some result => ret result
  | None => ret unavailable
  end.

(** A value received in a message: the handler tests it at run time. *)
Inductive JsValue :=
| JsUndefined
| JsNull
| JsBoolean (b : bool)
| JsNumber (q : Q)
| JsString (s : string)
| JsObject.

(** [!!v] *)
Definition truthy (v : JsValue) : bool :=
  match v with
  | JsUndefined | JsNull => false
  | JsBoolean b => b
  | JsNumber q => negb (Qeq_bool q 0)
  | JsString s => negb (String.eqb s EmptyString)
  | JsObject => true
  end.

(** [typeof v] *)
Definition typeof (v : JsValue) : string :=
  match v with
  | JsUndefined => "undefined"
  | JsNull => "object"
  | JsBoolean _ => "boolean"
  | JsNumber _ => "number"
  | JsString _ => "string"
  | JsObject => "object"
  end.

Definition string_value (v : JsValue) : string :=
  match v with
  | JsString s => s
  | _ => EmptyString
  end.

(** The message [{ action: 'classifyText', text, elementId }]; a missing
    [text] is [JsUndefined]. *)
Record ClassificationRequest := { text : JsValue; elementId : string }.

(** [interface ClassificationResponse]; the response carries the element
    id under the field [elementId]. *)
Record ClassificationResponse := {
  success : bool;
  classification : option ClassificationResult;
  response_elementId : string;
  error : option string;
  originalText : option string
}.

Definition set_detections (d : list Detection) (s : DetectionStats) (l : LocalStorage)
  : LocalStorage :=
  {| stats := Some s; recentDetections := Some d;
     sentinel_hg_feedback := sentinel_hg_feedback l;
     sentinel_hg_feedback_stats := sentinel_hg_feedback_stats l |}.

Definition storeDetection (text : string) (classification : ClassificationResult) : M unit :=
  try_catch
    (let* result := storage_local_get in
     let recentDetections := default [] (recentDetections result) in
     let stats := default {| detected := 0; filtered := 0 |} (stats result) in
     let* now := Date_now in
     let* stamp := Date_now in
     let newDetection :=
       {| detection_id := String.append "detection-" (decimal now);
          detection_text := text;
          detection_confidence := Data.confidence classification;
          detection_timestamp := stamp;
          detection_keywords := keywords classification |} in
     let updatedDetections := take 50 (newDetection :: recentDetections) in
     let updatedStats :=
       {| detected := detected stats + 1; filtered := filtered stats + 1 |} in
     let* _ := storage_local_set (set_detections updatedDetections updatedStats) in
     runtime_sendMessage "statsUpdated")
    (fun _ => ret tt).

(** The handler, with the argument of [sendResponse] as its result. *)
Definition handleClassificationRequest (this : Worker) (message : ClassificationRequest)
  : M ClassificationResponse :=
  let text := text message in
  let elementId := elementId message in
  if negb (truthy text) || negb (String.eqb (typeof text) "string") then
    ret {| success := false;
           classification := None;
           response_elementId := elementId;
           error := Some "Invalid text provided";
           originalText := None |}
  else
    let text := string_value text in
    try_catch
      (let* classification := classifyText this text in
       let* _ :=
         match label classification with
         | label_hateful => storeDetection text classification
         | label_normal => ret tt
         end in
       ret {| success := true;
              classification := Some classification;
              response_elementId := elementId;
              error := None;
              originalText := Some text |})
      (fun error =>
         ret {| success := false;
                classification := None;
                response_elementId := elementId;
                error := Some error;
                originalText := None |}).

(** *** Settings *)

(** [loadSettings]: the stored values, each with its default when the key
    is absent ([??]); a rejected read leaves the settings as they are. *)
Definition loadSettings (this : Worker) (s : SyncWorld) : Worker * SyncWorld :=
  match storage_sync_get s with
  | (Returned result, s') =>
      ({| settings :=
            {| enabled := default true (sync_enabled result);
               confidence := default (7 # 10) (sync_confidence result);
               selectedModel := default (modelId DEFAULT_MODEL) (sync_selectedModel result) |};
          classifier := classifier this;
          isModelLoaded := isModelLoaded this;
          isModelLoading := isModelLoading this |}, s')
  | (Thrown _, s') => (this, s')
  end.

(** [saveSettings]: the three settings written in one call; a rejected
    write is logged. *)
Definition saveSettings (this : Worker) (s : SyncWorld) : SyncWorld :=
  snd (storage_sync_set
         {| sync_enabled := Some (enabled (settings this));
            sync_confidence := Some (confidence (settings this));
            sync_selectedModel := Some (selectedModel (settings this)) |} s).

(** [Partial<ExtensionSettings>]: [None] is a key that the message does not
    carry. *)
Record PartialSettings := {
  new_enabled : option bool;
  new_confidence : option Q;
  new_selectedModel : option string
}.

(** [{ ...this.settings, ...message.settings }] *)
Definition merge (current : ExtensionSettings) (update : PartialSettings)
  : ExtensionSettings :=
  {| enabled := default (enabled current) (new_enabled update);
     confidence := default (confidence current) (new_confidence update);
     selectedModel := default (selectedModel current) (new_selectedModel update) |}.

(** [handleSettingsUpdate]: the worker with the merged settings, the
    success flag of the response and the synced store. *)
Definition handleSettingsUpdate (this : Worker) (update : PartialSettings) (s : SyncWorld)
  : Worker * bool * SyncWorld :=
  let this :=
    {| settings := merge (settings this) update;
       classifier := classifier this;
       isModelLoaded := isModelLoaded this;
       isModelLoading := isModelLoading this |} in
  (this, true, saveSettings this s).

(** *** Detections and feedback *)

Definition clearStats : M unit :=
  try_catch
    (storage_local_set
       (fun l =>
          {| stats := Some {| detected := 0; filtered := 0 |};
             recentDetections := Some [];
             sentinel_hg_feedback := sentinel_hg_feedback l;
             sentinel_hg_feedback_stats := sentinel_hg_feedback_stats l |}))
    (fun _ => ret tt).

(** The responses of the feedback handlers: [{ success, error?, stats?,
    data? }]. *)
Record FeedbackResponse := {
  feedback_success : bool;
  feedback_error : option string;
  feedback_stats : option FeedbackStats;
  feedback_data : option FeedbackManager.ExportData
}.

Definition succeeded : FeedbackResponse :=
  {| feedback_success := true; feedback_error := None;
     feedback_stats := None; feedback_data := None |}.

Definition failed (error : string) : FeedbackResponse :=
  {| feedback_success := false; feedback_error := Some error;
     feedback_stats := None; feedback_data := None |}.

(** [handleFeedbackSubmission]: the metadata of the feedback is overwritten
    with the current settings before the submission. *)
Definition handleFeedbackSubmission (this : Worker) (feedback : FeedbackInput)
  : M FeedbackResponse :=
  try_catch
    (let feedbackData :=
       {| Data.originalText := Data.originalText feedback;
          Data.classification := Data.classification feedback;
          userFeedback := userFeedback feedback;
          context := context feedback;
          metadata :=
            {| modelUsed := selectedModel (settings this);
               Data.confidenceThreshold := confidence (settings this);
               extensionVersion := "0.1.0" |} |} in
     let* _ := FeedbackManager.submitFeedback feedbackData in
     ret succeeded)
    (fun error => ret (failed error)).

Definition handleGetFeedbackStats : M FeedbackResponse :=
  try_catch
    (let* stats := FeedbackManager.getFeedbackStats in
     ret {| feedback_success := true; feedback_error := None;
            feedback_stats := Some stats; feedback_data := None |})
    (fun error => ret (failed error)).

Definition handleExportFeedback : M FeedbackResponse :=
  try_catch
    (let* exportData := FeedbackManager.exportFeedback in
     ret {| feedback_success := true; feedback_error := None;
            feedback_stats := None; feedback_data := Some exportData |})
    (fun error => ret (failed error)).

Definition handleClearFeedback : M FeedbackResponse :=
  try_catch
    (let* _ := FeedbackManager.clearFeedback in
     ret succeeded)
    (fun error => ret (failed error)).

End BackgroundServiceWorker.

(** ** content.ts *)

Module ContentScript.
Import JsString.

(** What the code reads of a DOM element: its identity [ref] (two
    references are the same element when their [ref]s are equal), its tag
    and the layout values that the browser computes for it. *)
Record Element := {
  ref : nat;
  tagName : string;
  innerText : string;
  offsetWidth : nat;
  offsetHeight : nat;
  display : string;
  visibility : string;
  opacity : string;
  rect_width : Q;
  rect_height : Q
}.

(** A subtree of the document: text nodes and elements with their child
    nodes in document order. *)
#[local] Unset Elimination Schemes.
Inductive Node :=
| TextNode (data : string)
| ElementNode (element : Element) (childNodes : list Node).
#[local] Set Elimination Schemes.

(** [node.textContent] *)
Fixpoint textContent (node : Node) : string :=
  match node with
  | TextNode data => data
  | ElementNode _ childNodes =>
      fold_right (fun child rest => String.append (textContent child) rest)
        EmptyString childNodes
  end.

(** [{ action: 'classifyText', text, elementId }] *)
Record Message := { text : string; elementId : string }.

(** The fields of the content script together with what it reads and
    writes outside itself: the [data-hs-ext-id] attribute of the elements
    ([hsExtId], keyed by [ref]), the clock and the messages sent to the
    background context. *)
Record Page := {
  processedElements : gset nat;
  uniqueIdCounter : nat;
  isEnabled : bool;
  hsExtId : gmap nat string;
  now : N;
  sent : list Message
}.

Definition initial : Page :=
  {| processedElements := ∅; uniqueIdCounter := 0; isEnabled := true;
     hsExtId := ∅; now := 0; sent := [] |}.

(** [element.dataset.hsExtId] as a condition: a present, non-empty
    attribute. *)
Definition has_hsExtId (this : Page) (r : nat) : bool :=
  match hsExtId this !! r with
  | Some v => negb (String.eqb v EmptyString)
  | None => false
  end.

(** [element.dataset.hsExtId || this.processedElements.has(element)] *)
Definition processed (this : Page) (r : nat) : bool :=
  has_hsExtId this r || bool_decide (r ∈ processedElements this).

(** [element.textContent || htmlElement.innerText || ''] *)
Definition text_of (element : Element) (childNodes : list Node) : string :=
  let content := textContent (ElementNode element childNodes) in
  if String.eqb content EmptyString then innerText element else content.

Definition isElementVisible (element : Element) : bool :=
  if (offsetWidth element =? 0)%nat || (offsetHeight element =? 0)%nat then false
  else if String.eqb (display element) "none"
          || String.eqb (visibility element) "hidden"
          || String.eqb (opacity element) "0" then false
  else if Qeq_bool (rect_width element) 0 || Qeq_bool (rect_height element) 0 then false
  else true.

(** The loop over [parentElement]; [ancestors] lists the [ref]s of the
    ancestors of the element, the nearest first, up to the document root. *)
Definition isChildOfProcessedElement (this : Page) (ancestors : list nat) : bool :=
  existsb (processed this) ancestors.

Definition textElementTypes : list string :=
  [ "P"; "SPAN"; "DIV"; "H1"; "H2"; "H3"; "H4"; "H5"; "H6";
    "LI"; "BLOCKQUOTE"; "ARTICLE"; "SECTION"; "MAIN"; "ASIDE";
    "FIGCAPTION"; "LABEL"; "TD"; "TH" ].

Definition nonContentTypes : list string :=
  [ "SCRIPT"; "STYLE"; "NOSCRIPT"; "META"; "LINK"; "INPUT";
    "TEXTAREA"; "SELECT"; "BUTTON"; "FORM"; "HEAD"; "TITLE" ].

Definition isTextElement (this : Page) (ancestors : list nat)
    (element : Element) (childNodes : list Node) : bool :=
  let trimmedText := trim (text_of element childNodes) in
  let hasSubstantialText :=
    (10 <=? String.length trimmedText)%nat && (String.length trimmedText <=? 2000)%nat in
  let isTextElementType := existsb (String.eqb (tagName element)) textElementTypes in
  let notProcessed :=
    negb (has_hsExtId this (ref element))
    && negb (bool_decide (ref element ∈ processedElements this)) in
  let isVisible := isElementVisible element in
  let isContentElement := negb (existsb (String.eqb (tagName element)) nonContentTypes) in
  let notChildOfProcessed := negb (isChildOfProcessedElement this ancestors) in
  hasSubstantialText && isTextElementType && notProcessed
  && isVisible && isContentElement && notChildOfProcessed.

(** The filter of the [TreeWalker], for a text node [data] whose parent is
    [element]; [true] is [FILTER_ACCEPT]. *)
Definition acceptNode (this : Page) (ancestors : list nat)
    (element : Element) (childNodes : list Node) (data : string) : bool :=
  let text := trim data in
  if String.eqb text EmptyString || (String.length text <? 10)%nat then false
  else if processed this (ref element) then false
  else isTextElement this ancestors element childNodes.

(** [elements.includes(parent)] *)
Definition includes_element (elements : list (Element * list Node)) (element : Element)
  : bool :=
  existsb (fun e => (ref e.1 =? ref element)%nat) elements.

(** The body of the [while] loop for the text node [data] that the walker
    returned, [parent] being its parent element: the filter accepted the
    node, and the parent is pushed unless the array has it. *)
Definition consider (this : Page) (ancestors : list nat)
    (parent : Element) (childNodes : list Node) (data : string)
    (elements : list (Element * list Node)) : list (Element * list Node) :=
  if acceptNode this ancestors parent childNodes data
     && isTextElement this ancestors parent childNodes
     && negb (includes_element elements parent)
  then elements ++ [(parent, childNodes)]
  else elements.

(** The [while] loop over [walker.nextNode()]: the text nodes below [node]
    in document order, each with its parent element; [elements] is the
    array being filled.  An element of the array is the element together
    with its child nodes. *)
Fixpoint walk (this : Page) (ancestors : list nat) (node : Node)
    (elements : list (Element * list Node)) : list (Element * list Node) :=
  match node with
  | TextNode _ => elements
  | ElementNode parent childNodes =>
      fold_left
        (fun elements child =>
           match child with
           | TextNode data => consider this ancestors parent childNodes data elements
           | ElementNode _ _ => walk this (ref parent :: ancestors) child elements
           end)
        childNodes elements
  end.

Definition findTextElements (this : Page) (ancestors : list nat) (node : Node)
  : list (Element * list Node) :=
  walk this ancestors node [].

(** [htmlElement.dataset.hsExtId = uniqueId; this.processedElements.add(element)]
    after [++this.uniqueIdCounter]. *)
Definition mark (this : Page) (element : Element) (uniqueId : string) : Page :=
  {| processedElements := {[ ref element ]} ∪ processedElements this;
     uniqueIdCounter := S (uniqueIdCounter this);
     isEnabled := isEnabled this;
     hsExtId := <[ ref element := uniqueId ]> (hsExtId this);
     now := now this;
     sent := sent this |}.

(** [chrome.runtime.sendMessage({ action: 'classifyText', text, elementId }, ...)] *)
Definition classifyText (this : Page) (text elementId : string) : Page :=
  {| processedElements := processedElements this;
     uniqueIdCounter := uniqueIdCounter this;
     isEnabled := isEnabled this;
     hsExtId := hsExtId this;
     now := now this;
     sent := sent this ++ [ {| text := text; elementId := elementId |} ] |}.

Definition processTextElement (this : Page) (el : Element * list Node) : Page :=
  let trimmedText := trim (text_of el.1 el.2) in
  if (String.length trimmedText <? 10)%nat || has_hsExtId this (ref el.1) then this
  else
    let uniqueId :=
      String.concat ""
        [ "hs-ext-"; Chrome.decimal (now this); "-";
          Chrome.decimal (N.of_nat (S (uniqueIdCounter this))) ] in
    let this := mark this el.1 uniqueId in
    classifyText this trimmedText uniqueId.

(** [textElements.forEach(element => this.processTextElement(element))] *)
Definition processAll (this : Page) (elements : list (Element * list Node)) : Page :=
  fold_left processTextElement elements this.

(** [processNewNode] for an element node. *)
Definition processNewNode (this : Page) (ancestors : list nat) (node : Node) : Page :=
  processAll this (findTextElements this ancestors node).

(** *** The startup sweep and the observer *)

(** One run of the closure [processBatch] of [processElementsInBatches]:
    [this] is the page and [elements] the array when the run starts.  The
    result is the page after the run, the new value of [index], and
    whether [setTimeout(processBatch, 10)] was called. *)
Definition processBatch (this : Page) (elements : list (Element * list Node))
    (batchSize index : nat) : Page * nat * bool :=
  let batch := take batchSize (drop index elements) in
  let this := processAll this batch in
  let index := (index + batchSize)%nat in
  (this, index, (index <? length elements)%nat).

(** What a timer callback finds when it fires.  Events handled since the
    run before may have changed the page, and the clock has moved:
    [page_then] gives the page as it is then from the page that the run
    before left.  The array is the one that was scanned, the same elements
    in the same order, but they read as the document has them by then:
    [read_then] gives an element of the array as it reads then. *)
Record Moment := {
  page_then : Page -> Page;
  read_then : Element * list Node -> Element * list Node
}.

(** The runs of [processBatch] made by the timer callbacks that have
    fired, one moment per callback, after the run that left [last]. *)
Fixpoint timers (later : list Moment) (elements : list (Element * list Node))
    (batchSize : nat) (last : Page * nat * bool) : list (Page * nat * bool) :=
  match later with
  | [] => []
  | moment :: rest =>
      if last.2 then
        let run :=
          processBatch (page_then moment last.1.1) (map (read_then moment) elements)
            batchSize last.1.2 in
        run :: timers rest elements batchSize run
      else []
  end.

(** [processElementsInBatches]: the runs of [processBatch] in order, the
    first one made at once, the others by the callbacks [later]. *)
Definition processElementsInBatches (this : Page) (elements : list (Element * list Node))
    (batchSize : nat) (later : list Moment) : list (Page * nat * bool) :=
  if (0 <? length elements)%nat then
    let first := processBatch this elements batchSize 0 in
    first :: timers later elements batchSize first
  else [].

(** [processExistingContent], [body] being [document.body]. *)
Definition processExistingContent (this : Page) (body : Node) (later : list Moment)
  : list (Page * nat * bool) :=
  if negb (isEnabled this) then []
  else processElementsInBatches this (findTextElements this [] body) 5 later.

(** A record of the observer: its type and the nodes it added, each with
    the [ref]s of its ancestors. *)
Inductive MutationType := childList | attributes | characterData.

Record MutationRecord := {
  mutation_type : MutationType;
  addedNodes : list (list nat * Node)
}.

(** The callback of the [MutationObserver]. *)
Definition onMutations (this : Page) (mutations : list MutationRecord) : Page :=
  if negb (isEnabled this) then this
  else
    fold_left
      (fun this mutation =>
         match mutation_type mutation with
         | childList =>
             fold_left (fun this node => processNewNode this node.1 node.2)
               (addedNodes mutation) this
         | _ => this
         end)
      mutations this.

End ContentScript.

(** ** Vocabulary of the statements *)

Module Spec.
Import JsString ModelConfig.

(** The characters of [s] before its first whitespace character. *)
Fixpoint lead (s : string) : string :=
  match s with
  | EmptyString => EmptyString
  | String c s' => if is_space c then EmptyString else String c (lead s')
  end.

(** No character of [s] is whitespace. *)
Fixpoint no_space (s : string) : bool :=
  match s with
  | EmptyString => true
  | String c s' => negb (is_space c) && no_space s'
  end.

(** [c.repeat(n)] *)
Fixpoint repeat_char (n : nat) (c : ascii) : string :=
  match n with
  | O => EmptyString
  | S n' => String c (repeat_char n' c)
  end.

(** No URL, no two adjacent whitespace characters, no whitespace first. *)
Definition settled (s : string) : Prop :=
  has_url s = false /\ has_space_run s = false /\ starts_with_space s = false.

Import Data Chrome BackgroundServiceWorker.

(** A prediction is mapped to a super-label when its label, in lower case,
    contains one of the strings configured for that super-label. *)
Definition hateful_label (cfg : ModelConfig) (p : Prediction) : bool :=
  some_included (hateful (labels cfg)) (label_of p).
Definition normal_label (cfg : ModelConfig) (p : Prediction) : bool :=
  some_included (normal (labels cfg)) (label_of p).

(** The mapping as the specification words it, by the configured label
    sets: the label of the prediction, in lower case, is one of the strings
    of the set.  It is compared below with [hateful_label] and
    [normal_label], which follow the code. *)
Definition listed (labels : list string) (p : Prediction) : bool :=
  existsb (String.eqb (label_of p)) labels.

(** The highest score per super-label, 0 when no prediction is mapped
    to it. *)
Definition maxScore (mapped : Prediction -> bool) (l : list Prediction) : Q :=
  fold_right (fun p m => if mapped p then Qmax (score_of p) m else m) 0 l.
Definition maxHateful (cfg : ModelConfig) (l : list Prediction) : Q :=
  maxScore (hateful_label cfg) l.
Definition maxNormal (cfg : ModelConfig) (l : list Prediction) : Q :=
  maxScore (normal_label cfg) l.

(** The three ways in which a round of the loop of [classifyWithAI] treats
    a prediction: it takes it as the hateful maximum, it takes it as the
    normal maximum, or it leaves the variables as they are. *)
Inductive visit_case (cfg : ModelConfig) (v : Locals) (p : Prediction) : Locals -> Prop :=
| visit_hateful :
    hateful_label cfg p = true -> maxConfidence v < score_of p ->
    visit_case cfg v p
      {| maxConfidence := score_of p; detectedLabel := label_of p; isHateful := true |}
| visit_normal :
    (hateful_label cfg p = true -> score_of p <= maxConfidence v) ->
    normal_label cfg p = true -> maxConfidence v < score_of p ->
    isHateful v = false ->
    visit_case cfg v p
      {| maxConfidence := score_of p; detectedLabel := label_of p; isHateful := false |}
| visit_skip :
    (hateful_label cfg p = true -> score_of p <= maxConfidence v) ->
    (normal_label cfg p = true -> isHateful v = false ->
     score_of p <= maxConfidence v) ->
    visit_case cfg v p v.

(** Some prediction mapped to hateful has a positive score that is higher
    than the score of every prediction mapped to normal listed before it. *)
Definition leads (cfg : ModelConfig) (l : list Prediction) : Prop :=
  exists before p after,
    l = before ++ p :: after
    /\ hateful_label cfg p = true
    /\ 0 < score_of p
    /\ Forall (fun n => normal_label cfg n = true -> score_of n < score_of p) before.

(** The predictions of an answer and the bound of a probability. *)
Definition predictions_of (out : ModelOutput) : list Prediction :=
  match out with
  | OutputArray l => l
  | OutputObject p => [p]
  | OutputOther => []
  end.

Definition probabilities (out : ModelOutput) : Prop :=
  Forall (fun p => score_of p <= 1) (predictions_of out).

(** The label of the result of a call, if it returned one. *)
Definition label_returned (r : outcome (option ClassificationResult) * World)
  : option Label :=
  match r.1 with
  | Returned (Some c) => Some (label c)
  | _ => None
  end.

(** The store after a call of [submitFeedback] that appended [fd] and
    whose storage calls all went through. *)
Definition after_submit (fd : FeedbackData) (l : LocalStorage) : LocalStorage :=
  let updated :=
    take FeedbackManager.LOG_CAP (fd :: default [] (sentinel_hg_feedback l)) in
  let stored := default FeedbackManager.getDefaultStats (sentinel_hg_feedback_stats l) in
  let current :=
    {| totalFeedback := totalFeedback stored;
       falsePositives := falsePositives stored;
       falseNegatives := falseNegatives stored;
       correctClassifications := correctClassifications stored;
       accuracy := accuracy stored;
       recentFeedback := take FeedbackManager.RECENT_CAP updated |} in
  FeedbackManager.set_feedback_stats
    (FeedbackManager.recompute
       (FeedbackManager.count (type (userFeedback (entry fd))) current))
    (FeedbackManager.set_feedback updated l).

(** The entry that [submitFeedback] builds from its argument in the world
    [w]. *)
Definition stamped (input : FeedbackInput) (w : World) : FeedbackData :=
  {| id :=
       String.append "feedback-"
         (String.append (decimal (clock w))
            (String.append "-" (String.substring 2 9 (hd "0" (randoms w)))));
     timestamp := clock w;
     entry := input |}.

(** Equality of feedback types, and the number of inputs with the feedback
    type [t]. *)
Definition FeedbackType_eqb (a b : FeedbackType) : bool :=
  match a, b with
  | false_positive, false_positive
  | false_negative, false_negative
  | correct, correct => true
  | _, _ => false
  end.

Definition tick (t : FeedbackType) (i : FeedbackInput) : nat :=
  if FeedbackType_eqb (type (userFeedback i)) t then 1 else 0.


(** The statistics in force: the stored ones, or the default ones. *)
Definition current (l : LocalStorage) : FeedbackStats :=
  default FeedbackManager.getDefaultStats (sentinel_hg_feedback_stats l).

(** The entries of the stored log, the newest first. *)
Definition log (l : LocalStorage) : list FeedbackData :=
  default [] (sentinel_hg_feedback l).

(** The first [n] storage calls to come go through. *)
Definition quiet (n : nat) (f : list (option string)) : bool :=
  forallb (fun x => match x with None => true | Some _ => false end) (take n f).

Definition goes_through (n : nat) (w : World) : bool := quiet n (faults w).


(** Every element processed in [this] is processed in [that]. *)
Definition grows (this that : ContentScript.Page) : Prop :=
  forall r, ContentScript.processed this r = true -> ContentScript.processed that r = true.

End Spec.

(** ** Concrete inputs used by the examples *)

Module Samples.
Import Data Chrome BackgroundServiceWorker.

Definition world0 : World :=
  {| local := empty_storage; faults := []; clock := 1700000000000%N;
     randoms := ["0.4fzyo82mvyr"; "0.k3j9x0q2mz1"]; broadcasts := []; inferences := [] |}.

Definition prediction (l : string) (s : Q) : Prediction :=
  {| rawLabel := Some l; score := Some s |}.

(** A loaded worker whose model answers [out] to every text, with the
    threshold [t] and the model [selected]. *)
Definition loaded_as (selected : string) (out : ModelOutput) (t : Q) : Worker :=
  {| settings := {| enabled := true; confidence := t; selectedModel := selected |};
     classifier := Some (fun _ => Returned out);
     isModelLoaded := true;
     isModelLoading := false |}.

(** The same with the default model selected. *)
Definition loaded (out : ModelOutput) (t : Q) : Worker :=
  loaded_as (ModelConfig.modelId ModelConfig.DEFAULT_MODEL) out t.

(** A hateful and a normal label with the same score, the hateful one
    first. *)
Definition tie : list Prediction :=
  [ prediction "hate" (8 # 10); prediction "normal" (8 # 10) ].

(** The same two predictions, the normal one first. *)
Definition tie_normal_first : list Prediction :=
  [ prediction "normal" (8 # 10); prediction "hate" (8 # 10) ].

(** The answer of a model that finds no hate: the label of the normal set
    that contains the hateful string ["hate"]. *)
Definition not_hate : list Prediction := [ prediction "not-hate" (95 # 100) ].

(** A hateful label listed before a normal label with a higher score. *)
Definition overtaken : list Prediction :=
  [ prediction "hate" (8 # 10); prediction "normal" (9 # 10) ].

(** The first scenario of the specification, with the toxic comment
    classifier selected. *)
Definition toxic : list Prediction := [ prediction "toxic" (82 # 100) ].
Definition TOXIC_BERT : ModelConfig.ModelConfig := Eval cbv in
    default ModelConfig.DEFAULT_MODEL (ModelConfig.HATE_SPEECH_MODELS !! 1%nat).
Definition toxic_worker (t : Q) : Worker :=
  loaded_as "unitary/toxic-bert" (OutputArray toxic) t.

Definition insult : string := "You are an idiot and I hate this".

(** Feedback of the given type on a hateful verdict. *)
Definition feedback_of (t : FeedbackType) : FeedbackInput :=
  {| Data.originalText := insult;
     Data.classification :=
       {| label := label_hateful; Data.confidence := 82 # 100; keywords := ["idiot"];
          explanation := "AI model detected toxic content"; method := ai |};
     userFeedback := {| type := t; reason := Some "sarcasm"; category := None |};
     context := {| url := "https://example.org/thread"; elementType := "P";
                   pageTitle := "Thread" |};
     metadata := {| modelUsed := "unitary/toxic-bert"; confidenceThreshold := 7 # 10;
                    extensionVersion := "0.1.0" |} |}.

(** A world whose fourth storage call, the write of the statistics, is
    rejected. *)
Definition world_stats_write_fails : World :=
  {| local := empty_storage; faults := [None; None; None; Some "QUOTA_BYTES quota exceeded"];
     clock := 1700000000000%N; randoms := ["0.4fzyo82mvyr"];
     broadcasts := []; inferences := [] |}.


(** A visible element and a small page: a container with text of its
    own, a paragraph with two text nodes, a script and a short span. *)
Definition visible (r : nat) (tag : string) : ContentScript.Element :=
  {| ContentScript.ref := r; ContentScript.tagName := tag;
     ContentScript.innerText := ""; ContentScript.offsetWidth := 120;
     ContentScript.offsetHeight := 18; ContentScript.display := "block";
     ContentScript.visibility := "visible"; ContentScript.opacity := "1";
     ContentScript.rect_width := 120; ContentScript.rect_height := 18 |}.

Definition page : ContentScript.Node :=
  ContentScript.ElementNode (visible 0 "DIV")
    [ ContentScript.TextNode "  container text here  ";
      ContentScript.ElementNode (visible 1 "P")
        [ ContentScript.TextNode "hello world, this is text";
          ContentScript.TextNode "another text node here" ];
      ContentScript.ElementNode (visible 2 "SCRIPT")
        [ ContentScript.TextNode "var x = 1; var y = 2;" ];
      ContentScript.ElementNode (visible 3 "SPAN") [ ContentScript.TextNode "short" ] ].

End Samples.

(** ** Vocabulary of the further statements *)

Module Terms.
Import JsString ModelConfig Data Chrome FeedbackManager.

(** Every whitespace character of [s] is the space character. *)
Fixpoint plain (s : string) : bool :=
  match s with
  | EmptyString => true
  | String c s' => (negb (is_space c) || Ascii.eqb c " "%char) && plain s'
  end.

(** Every character of [s] satisfies [P]. *)
Fixpoint every (P : ascii -> bool) (s : string) : bool :=
  match s with
  | EmptyString => true
  | String c s' => P c && every P s'
  end.

(** [detected] and [filtered] agree in the stored detection statistics. *)
Definition detections_agree (l : LocalStorage) : Prop :=
  match stats l with
  | Some s => detected s = filtered s
  | None => True
  end.

(** The statistics satisfy the formula of [accuracy] and its bounds. *)
Definition sound_accuracy (s : FeedbackStats) : Prop :=
  accuracy s ==
    (if (0 <? falsePositives s + falseNegatives s + correctClassifications s)%nat
     then inject_Z (Z.of_nat (correctClassifications s))
          / inject_Z (Z.of_nat (falsePositives s + falseNegatives s
                                + correctClassifications s))
     else 0)
  /\ 0 <= accuracy s /\ accuracy s <= 1.

(** A call that writes the feedback keys. *)
Inductive FeedbackCall :=
| call_submitFeedback (feedback : FeedbackInput)
| call_clearFeedback.

Definition run_feedback (c : FeedbackCall) : M unit :=
  match c with
  | call_submitFeedback feedback => FeedbackManager.submitFeedback feedback
  | call_clearFeedback => FeedbackManager.clearFeedback
  end.

(** The calls one after the other; a call that throws is answered with an
    error by its handler, and the next call is served. *)
Fixpoint run_feedbacks (calls : list FeedbackCall) (w : World) : World :=
  match calls with
  | [] => w
  | c :: rest => run_feedbacks rest (snd (run_feedback c w))
  end.

(** The detection that [storeDetection] builds in the world [w]. *)
Definition detection_of (text : string) (classification : ClassificationResult) (w : World)
  : Detection :=
  {| detection_id := String.append "detection-" (decimal (clock w));
     detection_text := text;
     detection_confidence := Data.confidence classification;
     detection_timestamp := clock w;
     detection_keywords := keywords classification |}.

(** The stored detections and their counters, with the defaults of
    [storeDetection] for absent keys. *)
Definition detections (l : LocalStorage) : list Detection :=
  default [] (recentDetections l).

Definition detection_stats (l : LocalStorage) : DetectionStats :=
  default {| detected := 0; filtered := 0 |} (stats l).

(** A call that writes the detection keys. *)
Inductive DetectionCall :=
| call_storeDetection (text : string) (classification : ClassificationResult)
| call_clearStats.

Definition run_detection (c : DetectionCall) : M unit :=
  match c with
  | call_storeDetection text classification =>
      BackgroundServiceWorker.storeDetection text classification
  | call_clearStats => BackgroundServiceWorker.clearStats
  end.

(** The calls one after the other. *)
Fixpoint run_detections (calls : list DetectionCall) : M unit :=
  match calls with
  | [] => ret tt
  | c :: rest => let* _ := run_detection c in run_detections rest
  end.

(** The nodes that the observer callback hands to [processNewNode], in
    order. *)
Definition added (mutations : list ContentScript.MutationRecord)
  : list (list nat * ContentScript.Node) :=
  flat_map
    (fun m =>
       match ContentScript.mutation_type m with
       | ContentScript.childList => ContentScript.addedNodes m
       | _ => []
       end)
    mutations.

(** A classification request as the content script means to send it: a
    text of 10 to 2000 characters without whitespace at either end, and an
    element id that is not empty. *)
Definition request_ok (m : ContentScript.Message) : Prop :=
  (10 <= String.length (ContentScript.text m) <= 2000)%nat
  /\ starts_with_space (ContentScript.text m) = false
  /\ ends_with_space (ContentScript.text m) = false
  /\ ContentScript.elementId m <> EmptyString.

(** What [processTextElement] itself ensures of a request: a text of at
    least 10 characters without whitespace at either end, and an element
    id that is not empty. *)
Definition request_min (m : ContentScript.Message) : Prop :=
  (10 <= String.length (ContentScript.text m))%nat
  /\ starts_with_space (ContentScript.text m) = false
  /\ ends_with_space (ContentScript.text m) = false
  /\ ContentScript.elementId m <> EmptyString.

(** [that] has sent the messages of [this] and then some more, one for
    each increment of the counter, all of which satisfy [P]; the switch
    and the clock are those of [this]. *)
Definition sends_more (P : ContentScript.Message -> Prop)
    (this that : ContentScript.Page) : Prop :=
  exists new,
    ContentScript.sent that = ContentScript.sent this ++ new
    /\ ContentScript.uniqueIdCounter that
       = (ContentScript.uniqueIdCounter this + length new)%nat
    /\ Forall P new
    /\ ContentScript.isEnabled that = ContentScript.isEnabled this.

End Terms.

(** * Properties *)

(** ** Text preprocessing *)

Module PreprocessFacts.
Import JsString ModelConfig Spec.

Lemma space_is_space : is_space " "%char = true.
Proof. reflexivity. Qed.

Lemma match_after_lead p s :
  no_space p = true -> match_after p s = match_after p (lead s).
Proof.
  revert s. induction p as [|a p IH]; intros s Hp; simpl in *.
  - destruct s as [|c s]; simpl; [reflexivity|].
    destruct (is_space c) eqn:Hc; simpl; rewrite ?Hc; reflexivity.
  - apply andb_true_iff in Hp as [Ha Hp].
    destruct s as [|c s]; simpl; [reflexivity|].
    destruct (is_space c) eqn:Hc; simpl.
    + destruct (Ascii.eqb a c) eqn:Hac; [|reflexivity].
      apply Ascii.eqb_eq in Hac. subst c. rewrite Hc in Ha. discriminate.
    + rewrite (IH s Hp). reflexivity.
Qed.

Lemma url_at_lead s : url_at s = url_at (lead s).
Proof.
  unfold url_at.
  rewrite (match_after_lead "https://" s), (match_after_lead "http://" s);
    reflexivity.
Qed.

Lemma append_cons c s t :
  String.append (String c s) t = String c (String.append s t).
Proof. reflexivity. Qed.

Lemma match_after_app p s t :
  match_after p s = true -> match_after p (String.append s t) = true.
Proof.
  revert s. induction p as [|a p IH]; intros [|c s]; rewrite ?append_cons;
    cbn [match_after]; try discriminate.
  - auto.
  - intros H. apply andb_true_iff in H as [H1 H2].
    rewrite H1. simpl. auto.
Qed.

Lemma url_at_app s t : url_at s = true -> url_at (String.append s t) = true.
Proof.
  unfold url_at. intros H. apply orb_true_iff in H as [H|H];
    apply (match_after_app _ _ t) in H; rewrite H; auto using orb_true_r.
Qed.

Lemma url_at_space c s : is_space c = true -> url_at (String c s) = false.
Proof.
  intros Hc. rewrite url_at_lead. simpl. rewrite Hc. reflexivity.
Qed.

Lemma has_url_cons c s : has_url s = true -> has_url (String c s) = true.
Proof. intros H. simpl. rewrite H. apply orb_true_r. Qed.

Lemma has_url_app s t : has_url s = true -> has_url (String.append s t) = true.
Proof.
  induction s as [|c s IH]; rewrite ?append_cons; cbn [has_url].
  - discriminate.
  - intros H. apply orb_true_iff in H as [H|H].
    + apply (url_at_app (String c s) t) in H. rewrite append_cons in H.
      rewrite H. reflexivity.
    + rewrite (IH H). apply orb_true_r.
Qed.

(** *** Removal of the URLs *)

Lemma lead_replaceUrls_true s : lead (replaceUrls true s) = EmptyString.
Proof.
  induction s as [|c s IH]; simpl; [reflexivity|].
  destruct (is_space c) eqn:Hc; simpl; [rewrite Hc; reflexivity | exact IH].
Qed.

Lemma lead_replaceUrls_false s :
  exists t, lead s = String.append (lead (replaceUrls false s)) t.
Proof.
  induction s as [|c s [t IH]]; [exists EmptyString; reflexivity|].
  cbn [replaceUrls].
  destruct (url_at (String c s)).
  - rewrite lead_replaceUrls_true. eexists. reflexivity.
  - cbn [lead]. destruct (is_space c).
    + exists EmptyString. reflexivity.
    + exists t. rewrite append_cons, IH. reflexivity.
Qed.

Lemma url_at_replaceUrls b s : url_at (replaceUrls b s) = false.
Proof.
  destruct b.
  - rewrite url_at_lead, lead_replaceUrls_true. reflexivity.
  - destruct s as [|c s]; [reflexivity|].
    cbn [replaceUrls]. destruct (url_at (String c s)) eqn:Hu.
    + rewrite url_at_lead, lead_replaceUrls_true. reflexivity.
    + destruct (url_at (String c (replaceUrls false s))) eqn:H'; [|reflexivity].
      destruct (lead_replaceUrls_false (String c s)) as [t Ht].
      cbn [replaceUrls] in Ht. rewrite Hu in Ht.
      rewrite url_at_lead in H'. apply (url_at_app _ t) in H'.
      rewrite <- Ht, <- url_at_lead in H'. congruence.
Qed.

Lemma has_url_replaceUrls b s : has_url (replaceUrls b s) = false.
Proof.
  revert b. induction s as [|c s IH]; intros b; [destruct b; reflexivity|].
  pose proof (url_at_replaceUrls b (String c s)) as Hu.
  cbn [replaceUrls] in *.
  destruct b.
  - destruct (is_space c); [|apply IH].
    cbn [has_url]. rewrite Hu, IH. reflexivity.
  - destruct (url_at (String c s)); [apply IH|].
    cbn [has_url]. rewrite Hu, IH. reflexivity.
Qed.

(** *** Collapse of the whitespace *)

Lemma lead_replaceSpaces s : lead (replaceSpaces false s) = lead s.
Proof.
  induction s as [|c s IH]; [reflexivity|].
  cbn [replaceSpaces lead]. destruct (is_space c) eqn:Hc; cbn [lead].
  - rewrite space_is_space. reflexivity.
  - rewrite Hc, IH. reflexivity.
Qed.

Lemma has_url_replaceSpaces b s :
  has_url (replaceSpaces b s) = true -> has_url s = true.
Proof.
  revert b. induction s as [|c s IH]; intros b; [destruct b; exact id|].
  cbn [replaceSpaces]. destruct (is_space c) eqn:Hc.
  - destruct b.
    + intros H. apply has_url_cons, (IH true), H.
    + cbn [has_url]. rewrite (url_at_space " " _ space_is_space).
      intros H. apply has_url_cons, (IH true), H.
  - intros H. cbn [has_url] in *. apply orb_true_iff in H as [H|H].
    + rewrite url_at_lead in H. cbn [lead] in H. rewrite Hc in H.
      rewrite lead_replaceSpaces in H.
      rewrite url_at_lead. cbn [lead]. rewrite Hc, H. reflexivity.
    + rewrite (IH false H). apply orb_true_r.
Qed.

Lemma space_run_replaceSpaces b s :
  has_space_run (replaceSpaces b s) = false
  /\ (b = true -> starts_with_space (replaceSpaces b s) = false).
Proof.
  revert b. induction s as [|c s IH]; intros b; [split; reflexivity|].
  cbn [replaceSpaces]. destruct (is_space c) eqn:Hc.
  - destruct b.
    + apply (IH true).
    + destruct (IH true) as [H1 H2]. split; [|discriminate].
      cbn [has_space_run]. rewrite H1, (H2 eq_refl). reflexivity.
  - destruct (IH false) as [H1 _]. split.
    + cbn [has_space_run]. rewrite Hc, H1. reflexivity.
    + intros _. exact Hc.
Qed.

(** *** Trimming *)

Lemma trimEnd_cons c s :
  trimEnd (String c s) =
  match trimEnd s with
  | EmptyString => if is_space c then EmptyString else String c EmptyString
  | String _ _ => String c (trimEnd s)
  end.
Proof. cbn [trimEnd]. destruct (trimEnd s); reflexivity. Qed.

Lemma has_url_trimStart s : has_url (trimStart s) = true -> has_url s = true.
Proof.
  induction s as [|c s IH]; [exact id|].
  cbn [trimStart]. destruct (is_space c); [|exact id].
  intros H. apply has_url_cons, IH, H.
Qed.

Lemma lead_trimEnd s : lead (trimEnd s) = lead s.
Proof.
  induction s as [|c s IH]; [reflexivity|].
  rewrite trimEnd_cons. cbn [lead].
  destruct (trimEnd s) eqn:Ht; destruct (is_space c) eqn:Hc; cbn [lead];
    rewrite ?Hc, <- ?IH; reflexivity.
Qed.

Lemma has_url_trimEnd s : has_url (trimEnd s) = true -> has_url s = true.
Proof.
  induction s as [|c s IH]; [exact id|].
  intros H. cbn [has_url].
  assert (Hu : url_at (trimEnd (String c s)) = url_at (String c s))
    by (rewrite url_at_lead, lead_trimEnd, <- url_at_lead; reflexivity).
  rewrite trimEnd_cons in H, Hu. destruct (trimEnd s) eqn:Ht.
  - destruct (is_space c); [discriminate|].
    cbn [has_url] in H. rewrite Hu in H. rewrite orb_false_r in H.
    rewrite H. reflexivity.
  - cbn [has_url] in H. rewrite Hu in H. apply orb_true_iff in H as [H|H].
    + rewrite H. reflexivity.
    + rewrite (IH H). apply orb_true_r.
Qed.

Lemma starts_trimStart s : starts_with_space (trimStart s) = false.
Proof.
  induction s as [|c s IH]; [reflexivity|].
  cbn [trimStart]. destruct (is_space c) eqn:Hc; [exact IH | exact Hc].
Qed.

Lemma starts_trimEnd s :
  starts_with_space (trimEnd s) = true -> starts_with_space s = true.
Proof.
  destruct s as [|c s]; [exact id|].
  rewrite trimEnd_cons. destruct (trimEnd s); [destruct (is_space c) eqn:Hc|];
    cbn [starts_with_space]; congruence.
Qed.

Lemma space_run_trimStart s :
  has_space_run (trimStart s) = true -> has_space_run s = true.
Proof.
  induction s as [|c s IH]; [exact id|].
  cbn [trimStart]. destruct (is_space c); [|exact id].
  intros H. cbn [has_space_run]. rewrite (IH H). apply orb_true_r.
Qed.

Lemma space_run_trimEnd s :
  has_space_run (trimEnd s) = true -> has_space_run s = true.
Proof.
  induction s as [|c s IH]; [exact id|].
  rewrite trimEnd_cons. destruct (trimEnd s) eqn:Ht.
  - destruct (is_space c); cbn; try discriminate.
    rewrite andb_false_r. discriminate.
  - rewrite <- Ht in *. cbn [has_space_run]. intros H.
    apply orb_true_iff in H as [H|H].
    + apply andb_true_iff in H as [H1 H2].
      rewrite H1, (starts_trimEnd _ H2). reflexivity.
    + rewrite (IH H). apply orb_true_r.
Qed.

Lemma ends_trimEnd s : ends_with_space (trimEnd s) = false.
Proof.
  induction s as [|c s IH]; [reflexivity|].
  rewrite trimEnd_cons. destruct (trimEnd s) eqn:Ht.
  - destruct (is_space c) eqn:Hc; [reflexivity | exact Hc].
  - exact IH.
Qed.

(** *** Truncation *)

Lemma substring_prefix n s :
  exists t, s = String.append (String.substring 0 n s) t.
Proof.
  revert s. induction n as [|n IH]; intros [|c s]; cbn [String.substring].
  - exists EmptyString. reflexivity.
  - exists (String c s). reflexivity.
  - exists EmptyString. reflexivity.
  - destruct (IH s) as [t Ht]. exists t. rewrite append_cons, <- Ht. reflexivity.
Qed.

Lemma length_substring_le n s : (String.length (String.substring 0 n s) <= n)%nat.
Proof.
  revert s. induction n as [|n IH]; intros [|c s]; cbn [String.substring String.length];
    try lia.
  specialize (IH s). lia.
Qed.

Lemma length_substring_eq n s :
  (n <= String.length s)%nat -> String.length (String.substring 0 n s) = n.
Proof.
  revert s. induction n as [|n IH]; intros [|c s]; cbn [String.substring String.length];
    try lia.
  intros H. rewrite IH; lia.
Qed.

Lemma starts_app s t :
  starts_with_space s = true -> starts_with_space (String.append s t) = true.
Proof. destruct s; [discriminate | exact id]. Qed.

Lemma space_run_app s t :
  has_space_run s = true -> has_space_run (String.append s t) = true.
Proof.
  induction s as [|c s IH]; [discriminate|].
  rewrite append_cons. cbn [has_space_run]. intros H.
  apply orb_true_iff in H as [H|H].
  - apply andb_true_iff in H as [H1 H2].
    rewrite H1, (starts_app _ t H2). reflexivity.
  - rewrite (IH H). apply orb_true_r.
Qed.

(** *** The text before truncation *)

Lemma settled_normalised text :
  settled (trim (replaceSpaces false (replaceUrls false text)))
  /\ ends_with_space (trim (replaceSpaces false (replaceUrls false text))) = false.
Proof.
  unfold trim. set (u := replaceUrls false text).
  repeat split.
  - destruct (has_url (trimEnd (trimStart (replaceSpaces false u)))) eqn:H; [|reflexivity].
    apply has_url_trimEnd, has_url_trimStart, has_url_replaceSpaces in H.
    unfold u in H. rewrite has_url_replaceUrls in H. discriminate.
  - destruct (has_space_run (trimEnd (trimStart (replaceSpaces false u)))) eqn:H;
      [|reflexivity].
    apply space_run_trimEnd, space_run_trimStart in H.
    rewrite (proj1 (space_run_replaceSpaces false u)) in H. discriminate.
  - destruct (starts_with_space (trimEnd (trimStart (replaceSpaces false u)))) eqn:H;
      [|reflexivity].
    apply starts_trimEnd in H. rewrite starts_trimStart in H. discriminate.
  - apply ends_trimEnd.
Qed.

Lemma settled_substring n s : settled s -> settled (String.substring 0 n s).
Proof.
  intros (Hu & Hr & Hs). destruct (substring_prefix n s) as [t Ht].
  repeat split.
  - destruct (has_url (String.substring 0 n s)) eqn:H; [|reflexivity].
    apply (has_url_app _ t) in H. congruence.
  - destruct (has_space_run (String.substring 0 n s)) eqn:H; [|reflexivity].
    apply (space_run_app _ t) in H. congruence.
  - destruct (starts_with_space (String.substring 0 n s)) eqn:H; [|reflexivity].
    apply (starts_app _ t) in H. congruence.
Qed.

(** C8, as the code has it.  For every input string the preprocessed text
    contains no match of [https?://] followed by a character that is not
    whitespace, contains no two adjacent whitespace characters, does not
    start with whitespace and has at most 512 characters; it does not end
    with whitespace either unless it was cut, in which case it has exactly
    512 characters. *)
Theorem preprocessText_normalised text :
  has_url (preprocessText text) = false
  /\ has_space_run (preprocessText text) = false
  /\ starts_with_space (preprocessText text) = false
  /\ (String.length (preprocessText text) <= 512)%nat
  /\ (ends_with_space (preprocessText text) = false
      \/ String.length (preprocessText text) = 512%nat).
Proof.
  unfold preprocessText. cbv beta zeta.
  change (removeUrls TEXT_PREPROCESSING) with true.
  change (normalizeWhitespace TEXT_PREPROCESSING) with true.
  change (maxLength TEXT_PREPROCESSING) with 512%nat.
  cbv iota.
  destruct (settled_normalised text) as [Hs He].
  set (p := trim (replaceSpaces false (replaceUrls false text))) in *.
  change (negb (512 =? 0)%nat) with true. cbn [andb].
  destruct (512 <? String.length p)%nat eqn:Hlen.
  - apply Nat.ltb_lt in Hlen.
    destruct (settled_substring 512 p Hs) as (H1 & H2 & H3).
    repeat split; try assumption.
    + apply length_substring_le.
    + right. apply length_substring_eq. lia.
  - apply Nat.ltb_ge in Hlen. destruct Hs as (H1 & H2 & H3).
    repeat split; try assumption. left. exact He.
Qed.

(** C8 as stated fails: a text whose 512th character, once URLs are
    removed and whitespace is collapsed, is a space is cut right after that
    space, so the result ends with whitespace. *)
Lemma preprocessText_trailing_space :
  ends_with_space (preprocessText (String.append (repeat_char 511 "a") " b")) = true.
Proof. vm_compute. reflexivity. Qed.

End PreprocessFacts.

(** ** The classification engine *)

Module EngineFacts.
Import JsString ModelConfig Data Chrome BackgroundServiceWorker Spec.

Lemma Qgtb_lt x y : Qgtb x y = true <-> y < x.
Proof.
  unfold Qgtb. rewrite negb_true_iff, <- not_true_iff_false, Qle_bool_iff.
  split; [apply Qnot_le_lt | apply Qlt_not_le].
Qed.

Lemma Qgtb_ge x y : Qgtb x y = false <-> x <= y.
Proof. unfold Qgtb. rewrite negb_false_iff. apply Qle_bool_iff. Qed.

Lemma Qgeb_le x y : Qgeb x y = true <-> y <= x.
Proof. apply Qle_bool_iff. Qed.

(** *** One round of the loop *)

Section Loop.
Variable cfg : ModelConfig.

Lemma visit_cases v p : visit_case cfg v p (visit cfg v p).
Proof.
  unfold visit. fold (hateful_label cfg p) (normal_label cfg p).
  destruct (hateful_label cfg p) eqn:Hh.
  - destruct (Qgtb (score_of p) (maxConfidence v)) eqn:Hgt.
    + apply Qgtb_lt in Hgt. cbn [maxConfidence isHateful].
      assert (Hirr : Qgtb (score_of p) (score_of p) = false)
        by (apply Qgtb_ge, Qle_refl).
      rewrite Hirr. cbn [andb].
      destruct (normal_label cfg p); apply visit_hateful; auto.
    + apply Qgtb_ge in Hgt.
      destruct (normal_label cfg p) eqn:Hn.
      * rewrite (proj2 (Qgtb_ge _ _) Hgt). cbn [andb].
        apply visit_skip; auto.
      * apply visit_skip; intros; [auto | congruence].
  - destruct (normal_label cfg p) eqn:Hn.
    + destruct (Qgtb (score_of p) (maxConfidence v)) eqn:Hgt.
      * apply Qgtb_lt in Hgt. destruct (isHateful v) eqn:Hv; cbn [andb negb].
        -- apply visit_skip; intros; congruence.
        -- apply visit_normal; auto. intros; congruence.
      * apply Qgtb_ge in Hgt. cbn [andb].
        apply visit_skip; intros; [congruence | auto].
    + apply visit_skip; intros; congruence.
Qed.

Lemma visit_keeps_hateful v p :
  isHateful v = true -> isHateful (visit cfg v p) = true.
Proof.
  intros Hv. destruct (visit_cases v p); auto. congruence.
Qed.

Lemma loop_keeps_hateful l v :
  isHateful v = true -> isHateful (fold_left (visit cfg) l v) = true.
Proof.
  revert v. induction l as [|p l IH]; intros v Hv; cbn [fold_left]; auto.
  apply IH, visit_keeps_hateful, Hv.
Qed.

Lemma visit_grows v p : maxConfidence v <= maxConfidence (visit cfg v p).
Proof.
  destruct (visit_cases v p); cbn [maxConfidence];
    auto using Qlt_le_weak, Qle_refl.
Qed.

Lemma visit_covers v p :
  hateful_label cfg p = true -> score_of p <= maxConfidence (visit cfg v p).
Proof.
  intros Hh. destruct (visit_cases v p); cbn [maxConfidence];
    auto using Qle_refl.
Qed.

Lemma loop_grows l v : maxConfidence v <= maxConfidence (fold_left (visit cfg) l v).
Proof.
  revert v. induction l as [|p l IH]; intros v; cbn [fold_left].
  - apply Qle_refl.
  - eapply Qle_trans; [apply (visit_grows v p) | apply IH].
Qed.

Lemma loop_covers l v p :
  In p l -> hateful_label cfg p = true ->
  score_of p <= maxConfidence (fold_left (visit cfg) l v).
Proof.
  revert v. induction l as [|x l IH]; intros v Hin Hh; [destruct Hin|].
  cbn [fold_left]. destruct Hin as [->|Hin].
  - eapply Qle_trans; [apply (visit_covers v p Hh) | apply loop_grows].
  - apply IH; assumption.
Qed.

(** The final value of [maxConfidence], once [isHateful] is set, is the
    score of a prediction mapped to hateful. *)
Lemma loop_attains l v :
  isHateful (fold_left (visit cfg) l v) = true ->
  (isHateful v = true
   /\ maxConfidence (fold_left (visit cfg) l v) = maxConfidence v)
  \/ exists p, In p l /\ hateful_label cfg p = true
               /\ maxConfidence (fold_left (visit cfg) l v) = score_of p.
Proof.
  revert v. induction l as [|x l IH]; intros v Hf; cbn [fold_left] in *.
  - left. auto.
  - destruct (IH _ Hf) as [[Hv' Hm] | (p & Hin & Hh & Hm)].
    + rewrite Hm. destruct (visit_cases v x) as [Hh Hlt | ? ? ? ? | ? ?].
      * right. exists x. cbn. auto.
      * discriminate.
      * left. auto.
    + right. exists p. cbn. auto.
Qed.

(** When the loop starts with [isHateful] unset, it sets it exactly when
    some prediction mapped to hateful beats the starting value and the
    normal predictions before it. *)
Lemma loop_sets_hateful l v :
  isHateful v = false ->
  isHateful (fold_left (visit cfg) l v) = true <->
  exists before p after,
    l = before ++ p :: after
    /\ hateful_label cfg p = true
    /\ maxConfidence v < score_of p
    /\ Forall (fun n => normal_label cfg n = true -> score_of n < score_of p) before.
Proof.
  revert v. induction l as [|x l IH]; intros v Hv; cbn [fold_left].
  - split; [congruence|]. intros ([|? ?] & ? & ? & ? & _); discriminate.
  - destruct (visit_cases v x) as [Hh Hlt | Hh Hn Hlt _ | Hh Hn].
    + split; [|intros _; apply loop_keeps_hateful; reflexivity].
      intros _. exists [], x, l. auto.
    + rewrite IH by reflexivity. cbn [maxConfidence]. split.
      * intros (b & p & a & -> & Hp & Hlt' & Hall).
        exists (x :: b), p, a.
        split; [reflexivity|]. split; [assumption|].
        split; [eapply Qlt_trans; eassumption|].
        constructor; auto.
      * intros ([|y b] & p & a & Heq & Hp & Hlt' & Hall);
          injection Heq as -> ->.
        -- exfalso. apply (Qlt_not_le _ _ Hlt'). auto.
        -- inversion Hall; subst. exists b, p, a. auto.
    + rewrite IH by assumption. split.
      * intros (b & p & a & -> & Hp & Hlt' & Hall).
        exists (x :: b), p, a.
        split; [reflexivity|]. split; [assumption|]. split; [assumption|].
        constructor; auto. intros Hx.
        eapply Qle_lt_trans; [apply Hn; assumption | exact Hlt'].
      * intros ([|y b] & p & a & Heq & Hp & Hlt' & Hall);
          injection Heq as -> ->.
        -- exfalso. apply (Qlt_not_le _ _ Hlt'). auto.
        -- inversion Hall; subst. exists b, p, a. auto.
Qed.

End Loop.

(** *** The highest score of a super-label *)

Lemma maxScore_nonneg mapped l : 0 <= maxScore mapped l.
Proof.
  induction l as [|x l IH]; cbn; [apply Qle_refl|].
  destruct (mapped x); [|exact IH].
  eapply Qle_trans; [exact IH | apply Q.le_max_r].
Qed.

Lemma maxScore_upper mapped l p :
  In p l -> mapped p = true -> score_of p <= maxScore mapped l.
Proof.
  induction l as [|x l IH]; intros Hin Hp; [destruct Hin|].
  cbn. destruct Hin as [->|Hin].
  - rewrite Hp. apply Q.le_max_l.
  - specialize (IH Hin Hp). destruct (mapped x); [|exact IH].
    eapply Qle_trans; [exact IH | apply Q.le_max_r].
Qed.

Lemma maxScore_least mapped l b :
  0 <= b -> (forall p, In p l -> mapped p = true -> score_of p <= b) ->
  maxScore mapped l <= b.
Proof.
  intros Hb. induction l as [|x l IH]; intros Hall; cbn; [exact Hb|].
  assert (Hl : maxScore mapped l <= b) by (apply IH; intros; apply Hall; cbn; auto).
  destruct (mapped x) eqn:Hx; [|exact Hl].
  apply Q.max_lub; [apply Hall; cbn; auto | exact Hl].
Qed.

Lemma maxScore_attained mapped l :
  0 < maxScore mapped l ->
  exists before p after,
    l = before ++ p :: after /\ mapped p = true /\ score_of p == maxScore mapped l.
Proof.
  induction l as [|x l IH]; cbn.
  - intros H. exfalso. revert H. apply Qlt_irrefl.
  - fold (maxScore mapped l). destruct (mapped x) eqn:Hx.
    + intros Hpos.
      destruct (Q.max_spec (score_of x) (maxScore mapped l)) as [[Hlt Heq]|[Hle Heq]].
      * destruct IH as (b & p & a & -> & Hp & Hs); [lra|].
        exists (x :: b), p, a. repeat split; auto. lra.
      * exists [], x, l. repeat split; auto. lra.
    + intros Hpos. destruct (IH Hpos) as (b & p & a & -> & Hp & Hs).
      exists (x :: b), p, a. auto.
Qed.

(** *** What the calls evaluate to *)

Lemma classifyWithAI_eq this text w :
  classifyWithAI this text w =
  match classifier this with
  | None => (Returned None, w)
  | Some model =>
      match model (preprocessText text) with
      | Returned out =>
          (Returned
             (Some (conclude this (getCurrentModelConfig this) (preprocessText text)
                      (judge (getCurrentModelConfig this) out))),
           with_inference w (preprocessText text))
      | Thrown _ => (Returned None, with_inference w (preprocessText text))
      end
  end.
Proof.
  unfold classifyWithAI, try_catch, bind, infer, ret.
  destruct (classifier this) as [model|]; [|reflexivity].
  destruct (model (preprocessText text)); reflexivity.
Qed.

(** [classifyWithAI] catches what it throws. *)
Lemma classifyWithAI_returns this text w :
  exists r w', classifyWithAI this text w = (Returned r, w').
Proof.
  rewrite classifyWithAI_eq. destruct (classifier this) as [model|]; [|eauto].
  destruct (model (preprocessText text)); eauto.
Qed.

Lemma classifyText_eq this text w :
  classifyText this text w =
  if isModelLoaded this && bool_decide (is_Some (classifier this)) then
    match classifyWithAI this text w with
    | (Returned (Some result), w') => (Returned result, w')
    | (_, w') => (Returned unavailable, w')
    end
  else (Returned unavailable, w).
Proof.
  unfold classifyText, bind.
  destruct (isModelLoaded this && bool_decide (is_Some (classifier this)));
    [|reflexivity].
  unfold try_catch. destruct (classifyWithAI_returns this text w) as (r & w' & ->).
  destruct r; reflexivity.
Qed.

Lemma classifyText_returns this text w :
  exists r w', classifyText this text w = (Returned r, w').
Proof.
  rewrite classifyText_eq.
  destruct (isModelLoaded this && bool_decide (is_Some (classifier this))); [|eauto].
  destruct (classifyWithAI_returns this text w) as ([r|] & w' & ->); eauto.
Qed.

Lemma conclude_hateful this cfg t v :
  label (conclude this cfg t v) = label_hateful <->
  isHateful v = true /\ confidence (settings this) <= maxConfidence v.
Proof.
  unfold conclude.
  destruct (isHateful v && Qgeb (maxConfidence v) (confidence (settings this))) eqn:H;
    cbn [label].
  - apply andb_true_iff in H as [H1 H2]. apply Qgeb_le in H2. tauto.
  - split; [discriminate|]. intros [H1 H2]. apply Qgeb_le in H2.
    rewrite H1, H2 in H. discriminate.
Qed.

Lemma conclude_labels this cfg t v :
  label (conclude this cfg t v) = label_normal
  \/ label (conclude this cfg t v) = label_hateful.
Proof. unfold conclude. destruct (_ && _); auto. Qed.

(** *** The verdict on an array of predictions *)

Lemma final_is_maxHateful cfg l :
  isHateful (fold_left (visit cfg) l start) = true ->
  maxConfidence (fold_left (visit cfg) l start) == maxHateful cfg l.
Proof.
  intros Hf. destruct (loop_attains cfg l start Hf) as [[Hs _]|(p & Hin & Hp & Hm)];
    [discriminate|].
  apply Qle_antisym.
  - rewrite Hm. apply maxScore_upper; assumption.
  - apply maxScore_least.
    + apply (loop_grows cfg l start).
    + intros q Hq Hh. apply loop_covers; assumption.
Qed.

Lemma leads_iff cfg l :
  leads cfg l <-> isHateful (fold_left (visit cfg) l start) = true.
Proof. rewrite loop_sets_hateful by reflexivity. reflexivity. Qed.

Lemma leads_of_max cfg l : maxNormal cfg l < maxHateful cfg l -> leads cfg l.
Proof.
  intros Hlt.
  pose proof (maxScore_nonneg (normal_label cfg) l) as Hn. fold (maxNormal cfg l) in Hn.
  destruct (maxScore_attained (hateful_label cfg) l) as (b & p & a & Hl & Hp & Hs).
  { unfold maxHateful in Hlt. lra. }
  fold (maxHateful cfg l) in Hs.
  exists b, p, a. split; [assumption|]. split; [assumption|]. split; [lra|].
  apply List.Forall_forall. intros n Hin Hnl.
  assert (Hle : score_of n <= maxNormal cfg l).
  { apply maxScore_upper; [|assumption]. rewrite Hl. apply in_or_app. auto. }
  lra.
Qed.

(** X29.  When the model answers an array of predictions, [classifyWithAI]
    returns a result.  Call a prediction hateful when its label contains a
    hateful string of the selected model, and normal when it contains a
    normal string.  The result is hateful exactly when the highest score
    of the hateful predictions reaches the threshold and some hateful
    prediction has a positive score above the score of every normal
    prediction that the array lists before it.  In particular the result
    is hateful whenever the highest hateful score exceeds the highest
    normal score and reaches the threshold. *)
Theorem classifyWithAI_verdict this text w model predictions :
  classifier this = Some model ->
  model (preprocessText text) = Returned (OutputArray predictions) ->
  exists result w',
    classifyWithAI this text w = (Returned (Some result), w')
    /\ (label result = label_hateful <->
        confidence (settings this) <= maxHateful (getCurrentModelConfig this) predictions
        /\ leads (getCurrentModelConfig this) predictions)
    /\ (maxNormal (getCurrentModelConfig this) predictions
          < maxHateful (getCurrentModelConfig this) predictions ->
        confidence (settings this) <= maxHateful (getCurrentModelConfig this) predictions ->
        label result = label_hateful).
Proof.
  intros Hc Hm. rewrite classifyWithAI_eq, Hc, Hm.
  set (cfg := getCurrentModelConfig this).
  eexists _, _. split; [reflexivity|].
  assert (Hiff : label (conclude this cfg (preprocessText text)
                          (judge cfg (OutputArray predictions))) = label_hateful <->
                 confidence (settings this) <= maxHateful cfg predictions
                 /\ leads cfg predictions).
  { rewrite conclude_hateful, leads_iff. cbn [judge]. split.
    - intros [Hh Hle]. split; [|assumption].
      rewrite <- (final_is_maxHateful cfg predictions Hh). exact Hle.
    - intros [Hle Hh]. split; [assumption|].
      rewrite (final_is_maxHateful cfg predictions Hh). exact Hle. }
  split; [exact Hiff|].
  intros Hlt Hle. apply Hiff. split; [assumption|]. apply leads_of_max, Hlt.
Qed.

Lemma classifyWithAI_verdict_witness :
  exists result w',
    classifyWithAI (Samples.toxic_worker (1 # 2))
      Samples.insult Samples.world0 = (Returned (Some result), w')
    /\ (label result = label_hateful <->
        (1 # 2) <= maxHateful Samples.TOXIC_BERT Samples.toxic
        /\ leads Samples.TOXIC_BERT Samples.toxic)
    /\ (maxNormal Samples.TOXIC_BERT Samples.toxic
          < maxHateful Samples.TOXIC_BERT Samples.toxic ->
        (1 # 2) <= maxHateful Samples.TOXIC_BERT Samples.toxic ->
        label result = label_hateful).
Proof.
  apply (classifyWithAI_verdict
           (Samples.toxic_worker (1 # 2))
           Samples.insult Samples.world0
           (fun _ => Returned (OutputArray Samples.toxic)) Samples.toxic);
    reflexivity.
Defined.

(** The order of an array with several predictions matters.  With a
    hateful and a normal label of equal score, the hateful one listed
    first, the result is hateful; and a hateful label listed before a
    normal label of higher score gives a hateful result as well. *)
Example hateful_listed_first :
  label_returned
    (classifyWithAI (Samples.loaded (OutputArray Samples.tie) (7 # 10))
       Samples.insult Samples.world0) = Some label_hateful
  /\ maxHateful DEFAULT_MODEL Samples.tie == maxNormal DEFAULT_MODEL Samples.tie
  /\ label_returned
       (classifyWithAI (Samples.loaded (OutputArray Samples.overtaken) (7 # 10))
          Samples.insult Samples.world0) = Some label_hateful
  /\ maxHateful DEFAULT_MODEL Samples.overtaken < maxNormal DEFAULT_MODEL Samples.overtaken.
Proof. repeat split; vm_compute; reflexivity. Qed.

(** With equal scores the order of the predictions decides: the normal
    label first gives a normal result. *)
Example tie_normal_first_is_normal :
  label_returned
    (classifyWithAI (Samples.loaded (OutputArray Samples.tie_normal_first) (7 # 10))
       Samples.insult Samples.world0) = Some label_normal.
Proof. vm_compute. reflexivity. Qed.

(** C1.  The code departs from the claim on a label of the normal set that
    contains a string of the hateful set.  The default model lists
    ["not-hate"] under [normal] and not under [hateful], so for the answer
    [[not-hate 0.95]] the hateful maximum of the claim is 0 and its normal
    maximum 0.95, and the claim gives a normal verdict.  The code matches
    labels by inclusion and tries the hateful strings first: ["not-hate"]
    contains ["hate"], and [classifyWithAI] returns a hateful verdict of
    confidence 0.95 at the threshold 0.7. *)
Theorem classifyWithAI_not_hate :
  listed (hateful (labels DEFAULT_MODEL)) (Samples.prediction "not-hate" (95 # 100)) = false
  /\ listed (normal (labels DEFAULT_MODEL)) (Samples.prediction "not-hate" (95 # 100)) = true
  /\ maxScore (listed (hateful (labels DEFAULT_MODEL))) Samples.not_hate == 0
  /\ maxScore (listed (normal (labels DEFAULT_MODEL))) Samples.not_hate == 95 # 100
  /\ hateful_label DEFAULT_MODEL (Samples.prediction "not-hate" (95 # 100)) = true
  /\ match fst (classifyWithAI (Samples.loaded (OutputArray Samples.not_hate) (7 # 10))
                  Samples.insult Samples.world0) with
     | Returned (Some result) =>
         label result = label_hateful /\ Data.confidence result == 95 # 100
     | _ => False
     end.
Proof. repeat split; vm_compute; reflexivity. Qed.

(** *** The threshold *)

Lemma conclude_antitone this cfg t v t1 t2 :
  t1 <= t2 ->
  label (conclude (with_confidence this t2) cfg t v) = label_hateful ->
  label (conclude (with_confidence this t1) cfg t v) = label_hateful.
Proof.
  intros Hle. rewrite !conclude_hateful. cbn [with_confidence settings confidence].
  intros [Hh Ht]. split; [assumption|]. eapply Qle_trans; eassumption.
Qed.

(** C4.  For a fixed text and a fixed model, a hateful verdict under a
    threshold stays hateful under every lower threshold, for
    [classifyWithAI] and for [classifyText]; so raising the threshold never
    turns a normal verdict into a hateful one. *)
Theorem threshold_antitone this text w t1 t2 :
  t1 <= t2 ->
  (label_returned (classifyWithAI (with_confidence this t2) text w) = Some label_hateful ->
   label_returned (classifyWithAI (with_confidence this t1) text w) = Some label_hateful)
  /\ (forall r2 w2,
        classifyText (with_confidence this t2) text w = (Returned r2, w2) ->
        label r2 = label_hateful ->
        exists r1 w1,
          classifyText (with_confidence this t1) text w = (Returned r1, w1)
          /\ label r1 = label_hateful).
Proof.
  intros Hle.
  assert (Hai : forall t, classifyWithAI (with_confidence this t) text w =
           match classifier this with
           | None => (Returned None, w)
           | Some model =>
               match model (preprocessText text) with
               | Returned out =>
                   (Returned
                      (Some (conclude (with_confidence this t) (getCurrentModelConfig this)
                               (preprocessText text)
                               (judge (getCurrentModelConfig this) out))),
                    with_inference w (preprocessText text))
               | Thrown _ => (Returned None, with_inference w (preprocessText text))
               end
           end) by (intros t; rewrite classifyWithAI_eq; reflexivity).
  split.
  - rewrite !Hai. destruct (classifier this) as [model|]; [|intros H; exact H].
    destruct (model (preprocessText text)); [|intros H; exact H].
    unfold label_returned. cbn [fst]. intros H. f_equal.
    injection H as H. eapply conclude_antitone; eassumption.
  - intros r2 w2. rewrite !classifyText_eq, !Hai.
    cbn [with_confidence isModelLoaded classifier].
    destruct (isModelLoaded this && bool_decide (is_Some (classifier this))).
    + destruct (classifier this) as [model|].
      * destruct (model (preprocessText text)).
        -- intros H Hl. injection H as <- <-. eexists _, _. split; [reflexivity|].
           eapply conclude_antitone; eassumption.
        -- intros H Hl. injection H as <- <-. discriminate.
      * intros H Hl. injection H as <- <-. discriminate.
    + intros H Hl. injection H as <- <-. discriminate.
Qed.

Lemma threshold_antitone_witness :
  (5 # 10) <= (7 # 10)
  /\ label_returned
       (classifyWithAI (with_confidence (Samples.toxic_worker (9 # 10)) (5 # 10))
          Samples.insult Samples.world0) = Some label_hateful.
Proof.
  assert (H : (5 # 10) <= (7 # 10)) by (vm_compute; discriminate).
  split; [exact H|].
  apply (proj1 (threshold_antitone
                  (Samples.toxic_worker (9 # 10))
                  Samples.insult Samples.world0 (5 # 10) (7 # 10) H)).
  reflexivity.
Defined.

(** *** The reported confidence *)

Lemma loop_bounded cfg l v b :
  maxConfidence v <= b -> Forall (fun p => score_of p <= b) l ->
  maxConfidence (fold_left (visit cfg) l v) <= b.
Proof.
  revert v. induction l as [|x l IH]; intros v Hv Hall; cbn [fold_left]; [exact Hv|].
  inversion Hall; subst. apply IH; [|assumption].
  destruct (visit_cases cfg v x); cbn [maxConfidence]; assumption.
Qed.

Lemma judge_bounded cfg out :
  probabilities out -> maxConfidence (judge cfg out) <= 1.
Proof.
  unfold probabilities. destruct out as [l|p|]; cbn [judge predictions_of]; intros H.
  - apply loop_bounded; [discriminate | exact H].
  - inversion H; subst. unfold single. destruct (some_included _ _); assumption.
  - discriminate.
Qed.

(** C10.  The result of [classifyWithAI] has a confidence of at least 0.5
    if it is normal and of at most 0.95 if it is hateful, for every text
    and every answer of the model; the confidence of a normal result is at
    most 1 as well, the scores of an answer being probabilities, at
    most 1. *)
Theorem confidence_bounds this text w model out :
  classifier this = Some model ->
  model (preprocessText text) = Returned out ->
  exists result w',
    classifyWithAI this text w = (Returned (Some result), w')
    /\ (label result = label_normal ->
        (1 # 2) <= Data.confidence result
        /\ (probabilities out -> Data.confidence result <= 1))
    /\ (label result = label_hateful -> Data.confidence result <= (95 # 100)).
Proof.
  intros Hc Hm. rewrite classifyWithAI_eq, Hc, Hm.
  eexists _, _. split; [reflexivity|].
  unfold conclude.
  destruct (_ && _); cbn [label Data.confidence]; split; try discriminate; intros _.
  - apply Q.le_min_l.
  - split; [apply Q.le_max_l|]. intros Hp.
    apply Q.max_lub; [discriminate | apply judge_bounded, Hp].
Qed.

Lemma confidence_bounds_witness :
  exists result w',
    classifyWithAI (Samples.loaded (OutputArray Samples.tie) (9 # 10))
      Samples.insult Samples.world0 = (Returned (Some result), w')
    /\ (label result = label_normal ->
        (1 # 2) <= Data.confidence result /\ Data.confidence result <= 1)
    /\ (label result = label_hateful -> Data.confidence result <= (95 # 100)).
Proof.
  destruct (confidence_bounds
              (Samples.loaded (OutputArray Samples.tie) (9 # 10))
              Samples.insult Samples.world0
              (fun _ => Returned (OutputArray Samples.tie)) (OutputArray Samples.tie)
              eq_refl eq_refl) as (result & w' & Hrun & Hnormal & Hhateful).
  exists result, w'. split; [exact Hrun|]. split; [|exact Hhateful].
  intros Hn. destruct (Hnormal Hn) as [Hlow Hhigh]. split; [exact Hlow|].
  apply Hhigh. repeat constructor; discriminate.
Defined.

(** *** The model is not loaded *)

(** A load that fails leaves the worker without a loaded model. *)
Lemma loadAIModel_failed pipeline this e :
  isModelLoaded this = false ->
  pipeline (selectedModel (settings this)) = Thrown e ->
  isModelLoaded (loadAIModel pipeline this) = false.
Proof.
  intros Hl Hp. unfold loadAIModel. rewrite Hl, Hp.
  destruct (isModelLoading this); cbn; [exact Hl | reflexivity].
Qed.

(** C2.  While the model is not loaded, whether no load was tried, one is
    running or one failed, [classifyText] returns, for every text, the
    normal label with confidence 0.5 and an explanation that says that the
    model is not available; it does not throw, does not call the model and
    leaves the store alone. *)
Theorem classifyText_unavailable this text w :
  isModelLoaded this = false ->
  classifyText this text w =
    (Returned
       {| label := label_normal;
          Data.confidence := 1 # 2;
          keywords := [];
          explanation := "AI model not available - defaulting to normal classification";
          method := ai |},
     w)
  /\ includes "AI model not available - defaulting to normal classification"
       "model not available" = true.
Proof.
  intros Hl. split; [|reflexivity].
  rewrite classifyText_eq, Hl. reflexivity.
Qed.

Lemma classifyText_unavailable_witness :
  classifyText initial "hello world" Samples.world0 =
    (Returned
       {| label := label_normal;
          Data.confidence := 1 # 2;
          keywords := [];
          explanation := "AI model not available - defaulting to normal classification";
          method := ai |},
     Samples.world0)
  /\ includes "AI model not available - defaulting to normal classification"
       "model not available" = true.
Proof.
  apply (classifyText_unavailable initial "hello world" Samples.world0).
  reflexivity.
Defined.

(** *** Malformed requests *)

(** C9.  A request whose [text] is missing, is not a string or is the
    empty string is answered with [success: false], the error and the
    element id of the request; the answer carries no classification, and
    the world is left as it was: the model was not called and no detection
    was stored. *)
Theorem malformed_request_rejected this message w :
  (forall s, text message = JsString s -> s = EmptyString) ->
  handleClassificationRequest this message w =
    (Returned
       {| success := false;
          classification := None;
          response_elementId := elementId message;
          error := Some "Invalid text provided";
          originalText := None |},
     w).
Proof.
  intros Hs. unfold handleClassificationRequest.
  destruct (text message) as [| |b|q|s|] eqn:Ht; cbn [truthy typeof];
    try (rewrite orb_true_r; reflexivity); try reflexivity.
  rewrite (Hs s eq_refl). reflexivity.
Qed.

Lemma malformed_request_rejected_witness :
  handleClassificationRequest (Samples.toxic_worker (7 # 10))
    {| text := JsNumber 42; elementId := "hs-ext-1700000000000-1" |} Samples.world0 =
    (Returned
       {| success := false;
          classification := None;
          response_elementId := "hs-ext-1700000000000-1";
          error := Some "Invalid text provided";
          originalText := None |},
     Samples.world0).
Proof.
  apply (malformed_request_rejected (Samples.toxic_worker (7 # 10))
           {| text := JsNumber 42; elementId := "hs-ext-1700000000000-1" |}
           Samples.world0).
  intros s H. discriminate H.
Defined.

(** The scenarios of the specification: the score 0.82 of a toxic label
    under the thresholds 0.5 and 0.9. *)
Example scenario_low_threshold :
  exists r w',
    classifyText (Samples.toxic_worker (1 # 2)) Samples.insult Samples.world0
      = (Returned r, w')
    /\ label r = label_hateful /\ Data.confidence r == 82 # 100.
Proof. eexists _, _. split; [vm_compute; reflexivity|]. split; reflexivity. Qed.

Example scenario_high_threshold :
  exists r w',
    classifyText (Samples.toxic_worker (9 # 10)) Samples.insult Samples.world0
      = (Returned r, w')
    /\ label r = label_normal /\ Data.confidence r == 82 # 100.
Proof. eexists _, _. split; [vm_compute; reflexivity|]. split; reflexivity. Qed.

End EngineFacts.

(** ** The feedback store *)

Module FeedbackFacts.
Import Data Chrome FeedbackManager Spec.

#[local] Opaque LOG_CAP RECENT_CAP.

(** *** Storage calls that go through *)

Lemma quiet_add a b f : quiet (a + b) f = quiet a f && quiet b (drop a f).
Proof.
  unfold quiet. rewrite <- (take_take_drop f a b). apply forallb_app.
Qed.

Lemma goes_through_add a b w w' :
  goes_through (a + b) w = true ->
  faults w' = drop a (faults w) ->
  goes_through a w = true /\ goes_through b w' = true.
Proof.
  unfold goes_through. rewrite quiet_add. intros H ->.
  apply andb_true_iff in H. exact H.
Qed.

(** *** One submission *)

Lemma submitFeedback_through input w :
  goes_through 4 w = true ->
  exists w',
    submitFeedback input w = (Returned tt, w')
    /\ local w' = after_submit (stamped input w) (local w)
    /\ faults w' = drop 4 (faults w).
Proof.
  destruct w as [l f c r b i]. unfold goes_through. cbn [faults].
  destruct f as [|[e1|] [|[e2|] [|[e3|] [|[e4|] f]]]]; destruct r as [|r0 r];
    cbn [quiet take forallb andb];
    solve [discriminate | intros _; eexists; split; [reflexivity|]; split; reflexivity].
Qed.



(** *** The counters *)







(** *** The log *)

Lemma take_app_take {A} (n m : nat) (xs ys : list A) :
  (n <= m)%nat -> take n (xs ++ take m ys) = take n (xs ++ ys).
Proof.
  revert n. induction xs as [|x xs IH]; intros n Hle.
  - cbn [app]. rewrite take_take. f_equal. lia.
  - destruct n as [|n]; [reflexivity|].
    cbn [app take]. rewrite IH by lia. reflexivity.
Qed.

Lemma log_after_submit fd l :
  log (after_submit fd l) = take LOG_CAP (fd :: log l).
Proof. reflexivity. Qed.

(** What a call leaves in the store, whatever the storage does: nothing
    new when it throws, the new entry at the head of the log when it
    returns. *)
Lemma submitFeedback_cases input w :
  match submitFeedback input w with
  | (Thrown _, w') => local w' = local w
  | (Returned _, w') =>
      sentinel_hg_feedback (local w')
      = Some (take LOG_CAP (stamped input w :: log (local w)))
  end.
Proof.
  destruct w as [l f c r b i].
  destruct f as [|[e1|] [|[e2|] [|[e3|] [|[e4|] f]]]]; destruct r as [|r0 r];
    reflexivity.
Qed.





(** *** Failures of the storage *)

(** C6, as the code has it.  A rejected read of the log, and a rejected
    write of the log, make [submitFeedback] throw the error of the storage,
    and the store is then as it was.  When the read and the write of the
    log go through, the call returns, whatever the storage does afterwards:
    the new entry is at the head of the log, cut to 1000 entries, and the
    detection keys are as they were.  When the four storage calls of the
    submission go through, the statistics are updated with the entry as
    well; when the write of the statistics is rejected, the call returns
    and the statistics are as they were.  In every case a call that throws
    leaves the store as it was and a call that returns has appended the
    entry. *)
Theorem submitFeedback_outcome input w :
  match submitFeedback input w with
  | (Thrown _, w') => local w' = local w
  | (Returned _, w') =>
      sentinel_hg_feedback (local w')
      = Some (take 1000 (stamped input w :: log (local w)))
  end
  /\ (goes_through 4 w = true ->
      exists w',
        submitFeedback input w = (Returned tt, w')
        /\ local w' = after_submit (stamped input w) (local w))
  /\ (forall e rest,
        faults w = Some e :: rest ->
        exists w', submitFeedback input w = (Thrown e, w') /\ local w' = local w)
  /\ (forall e rest,
        faults w = None :: Some e :: rest ->
        exists w', submitFeedback input w = (Thrown e, w') /\ local w' = local w)
  /\ (goes_through 2 w = true ->
      exists w',
        submitFeedback input w = (Returned tt, w')
        /\ sentinel_hg_feedback (local w')
           = Some (take 1000 (stamped input w :: log (local w)))
        /\ stats (local w') = stats (local w)
        /\ recentDetections (local w') = recentDetections (local w))
  /\ (forall e rest,
        faults w = None :: None :: None :: Some e :: rest ->
        exists w',
          submitFeedback input w = (Returned tt, w')
          /\ sentinel_hg_feedback (local w')
             = Some (take 1000 (stamped input w :: log (local w)))
          /\ sentinel_hg_feedback_stats (local w')
             = sentinel_hg_feedback_stats (local w)).
Proof.
  split; [apply submitFeedback_cases|].
  split.
  { intros H. destruct (submitFeedback_through input w H) as (w' & H1 & H2 & _).
    exists w'. split; assumption. }
  destruct w as [l f c r b i]. cbn [faults]. unfold goes_through. cbn [faults].
  split; [|split; [|split]].
  - intros e rest ->. destruct r as [|r0 r]; eexists; split; reflexivity.
  - intros e rest ->. destruct r as [|r0 r]; eexists; split; reflexivity.
  - destruct f as [|[e1|] [|[e2|] [|[e3|] [|[e4|] f]]]]; destruct r as [|r0 r];
      cbn [quiet take forallb andb];
      solve [discriminate | intros _; eexists; repeat split].
  - intros e rest ->. destruct r as [|r0 r]; eexists; repeat split.
Qed.

Lemma submitFeedback_outcome_witness :
  exists w',
    submitFeedback (Samples.feedback_of correct) Samples.world0 = (Returned tt, w')
    /\ local w'
       = after_submit (stamped (Samples.feedback_of correct) Samples.world0)
           (local Samples.world0).
Proof.
  apply (proj1 (proj2 (submitFeedback_outcome (Samples.feedback_of correct)
                         Samples.world0))).
  reflexivity.
Defined.

(** C6 as stated fails.  When the write of the statistics is rejected, the
    call returns without an error, the log has gained the entry and no
    counter has been incremented. *)
Lemma submitFeedback_partial_update :
  fst (submitFeedback (Samples.feedback_of false_positive) Samples.world_stats_write_fails)
    = Returned tt
  /\ length (log (local (snd (submitFeedback (Samples.feedback_of false_positive)
                                Samples.world_stats_write_fails)))) = 1%nat
  /\ sentinel_hg_feedback_stats
       (local (snd (submitFeedback (Samples.feedback_of false_positive)
                      Samples.world_stats_write_fails))) = None.
Proof. repeat split. Qed.

End FeedbackFacts.

(** ** Extraction and dispatch *)

Module ContentFacts.
Import JsString ContentScript Spec.

Lemma Node_induction (P : Node -> Prop) :
  (forall data, P (TextNode data)) ->
  (forall element childNodes, Forall P childNodes -> P (ElementNode element childNodes)) ->
  forall node, P node.
Proof.
  intros Htext Helem. fix IH 1. intros [data|element childNodes].
  - apply Htext.
  - apply Helem. induction childNodes as [|child rest IHrest]; constructor.
    + apply IH.
    + exact IHrest.
Qed.

(** *** The state only grows *)

Lemma grows_refl this : grows this this.
Proof. intros r H. exact H. Qed.

Lemma grows_trans a b c : grows a b -> grows b c -> grows a c.
Proof. intros Hab Hbc r H. apply Hbc, Hab, H. Qed.

Lemma isTextElement_processed this ancestors element childNodes :
  isTextElement this ancestors element childNodes = true ->
  processed this (ref element) = false
  /\ existsb (processed this) ancestors = false
  /\ (10 <= String.length (trim (text_of element childNodes)))%nat.
Proof.
  unfold isTextElement, isChildOfProcessedElement, processed. intros H.
  repeat (apply andb_true_iff in H as [H ?]).
  repeat match goal with
         | X : negb _ = true |- _ => apply negb_true_iff in X
         | X : negb _ && negb _ = true |- _ => apply andb_true_iff in X as [? ?]
         end.
  repeat split.
  - apply orb_false_iff. auto.
  - assumption.
  - apply Nat.leb_le. assumption.
Qed.

Lemma existsb_processed_mono this that ancestors :
  grows this that ->
  existsb (processed that) ancestors = false ->
  existsb (processed this) ancestors = false.
Proof.
  intros Hg. induction ancestors as [|a l IH]; cbn [existsb]; [reflexivity|].
  intros H. apply orb_false_iff in H as [H1 H2]. rewrite (IH H2), orb_false_r.
  destruct (processed this a) eqn:E; [|reflexivity].
  rewrite (Hg a E) in H1. discriminate.
Qed.

Lemma isTextElement_mono this that ancestors element childNodes :
  grows this that ->
  isTextElement that ancestors element childNodes = true ->
  isTextElement this ancestors element childNodes = true.
Proof.
  intros Hg H.
  destruct (isTextElement_processed _ _ _ _ H) as (Hp & Ha & _).
  assert (Hp' : processed this (ref element) = false).
  { destruct (processed this (ref element)) eqn:E; [|reflexivity].
    rewrite (Hg _ E) in Hp. discriminate. }
  pose proof (existsb_processed_mono this that ancestors Hg Ha) as Ha'.
  unfold isTextElement, isChildOfProcessedElement in *.
  unfold processed in Hp'. apply orb_false_iff in Hp' as [Hp1 Hp2].
  rewrite Hp1, Hp2, Ha'.
  repeat (apply andb_true_iff in H as [H ?]).
  repeat (apply andb_true_iff; split); auto.
Qed.

Lemma acceptNode_mono this that ancestors element childNodes data :
  grows this that ->
  acceptNode that ancestors element childNodes data = true ->
  acceptNode this ancestors element childNodes data = true.
Proof.
  intros Hg. unfold acceptNode.
  destruct (String.eqb (trim data) EmptyString || (String.length (trim data) <? 10)%nat);
    [discriminate|].
  destruct (processed that (ref element)) eqn:E; [discriminate|].
  intros H. pose proof (isTextElement_mono _ _ _ _ _ Hg H) as H'.
  destruct (isTextElement_processed _ _ _ _ H') as (Hp & _). rewrite Hp. exact H'.
Qed.

(** *** Folds that fill an array *)

Section Filling.
Context {X B : Type}.
Variables f g : list X -> B -> list X.
Variables R Q : X -> Prop.

Lemma fold_left_incl (cs : list B) :
  Forall (fun c => forall acc e, In e acc -> In e (f acc c)) cs ->
  forall acc e, In e acc -> In e (fold_left f cs acc).
Proof.
  induction 1 as [|c cs Hc _ IH]; intros acc e He; cbn [fold_left]; auto.
Qed.

Lemma fold_left_either (cs : list B) :
  Forall (fun c => forall acc e, In e (f acc c) -> In e acc \/ Q e) cs ->
  forall acc e, In e (fold_left f cs acc) -> In e acc \/ Q e.
Proof.
  induction 1 as [|c cs Hc _ IH]; intros acc e He; cbn [fold_left] in He; auto.
  destruct (IH _ _ He) as [H|H]; auto.
Qed.

Lemma fold_left_settled (cs : list B) :
  Forall (fun c => forall acc e, In e acc -> In e (f acc c)) cs ->
  Forall (fun c => forall acc acc',
            (forall e, In e (f acc c) -> R e) -> g acc' c = acc') cs ->
  forall acc acc',
    (forall e, In e (fold_left f cs acc) -> R e) -> fold_left g cs acc' = acc'.
Proof.
  intros Hincl Hset. induction Hset as [|c cs Hc _ IH]; intros acc acc' H;
    cbn [fold_left] in *; [reflexivity|].
  inversion Hincl as [|? ? Hc' Hcs']; subst.
  rewrite (Hc acc acc').
  - apply (IH Hcs' (f acc c)). exact H.
  - intros e He. apply H. apply fold_left_incl; assumption.
Qed.

End Filling.

(** *** The walk *)

Lemma consider_incl this ancestors parent childNodes data acc e :
  In e acc -> In e (consider this ancestors parent childNodes data acc).
Proof.
  intros H. unfold consider. destruct (_ && _); [|exact H].
  apply in_or_app. left. exact H.
Qed.

Lemma walk_incl this node :
  forall ancestors acc e, In e acc -> In e (walk this ancestors node acc).
Proof.
  induction node as [data|parent childNodes IH] using Node_induction;
    intros ancestors acc e He; cbn [walk]; [exact He|].
  apply fold_left_incl; [|exact He].
  eapply List.Forall_impl; [|exact IH].
  intros [data|el ch] Hchild acc0 e0 He0.
  - apply consider_incl, He0.
  - apply Hchild, He0.
Qed.

Lemma walk_found this node :
  forall ancestors acc e,
    In e (walk this ancestors node acc) ->
    In e acc \/ (10 <= String.length (trim (text_of e.1 e.2)))%nat.
Proof.
  induction node as [data|parent childNodes IH] using Node_induction;
    intros ancestors acc e He; cbn [walk] in He; [left; exact He|].
  revert acc e He. apply fold_left_either.
  eapply List.Forall_impl; [|exact IH].
  intros [data|el ch] Hchild acc0 e0 He0.
  - unfold consider in He0.
    destruct (acceptNode _ _ _ _ _ && isTextElement this ancestors parent childNodes
              && _) eqn:E; [|left; exact He0].
    apply in_app_or in He0 as [He0|[<-|[]]]; [left; exact He0|].
    right. apply andb_true_iff in E as [E _]. apply andb_true_iff in E as [_ E].
    apply isTextElement_processed in E. apply E.
  - eapply Hchild, He0.
Qed.

Lemma includes_element_In elements parent :
  includes_element elements parent = true ->
  exists e, In e elements /\ ref e.1 = ref parent.
Proof.
  unfold includes_element. intros H. apply List.existsb_exists in H as (e & He & Hr).
  exists e. split; [exact He|]. apply Nat.eqb_eq, Hr.
Qed.

Lemma consider_settled this that ancestors parent childNodes data acc acc' :
  grows this that ->
  (forall e, In e (consider this ancestors parent childNodes data acc) ->
             processed that (ref e.1) = true) ->
  consider that ancestors parent childNodes data acc' = acc'.
Proof.
  intros Hg H. unfold consider at 1.
  destruct (acceptNode that ancestors parent childNodes data) eqn:Ha; [|reflexivity].
  destruct (isTextElement that ancestors parent childNodes) eqn:Ht; [|reflexivity].
  exfalso.
  destruct (isTextElement_processed _ _ _ _ Ht) as (Hp & _).
  assert (Hin : exists e, In e (consider this ancestors parent childNodes data acc)
                          /\ ref e.1 = ref parent).
  { unfold consider.
    rewrite (acceptNode_mono _ _ _ _ _ _ Hg Ha), (isTextElement_mono _ _ _ _ _ Hg Ht).
    cbn [andb]. destruct (includes_element acc parent) eqn:Hi; cbn [negb].
    - apply includes_element_In, Hi.
    - exists (parent, childNodes). split; [|reflexivity].
      apply in_or_app. right. left. reflexivity. }
  destruct Hin as (e & He & Hr). apply H in He. rewrite Hr in He. congruence.
Qed.

Lemma walk_settled this that node :
  grows this that ->
  forall ancestors acc acc',
    (forall e, In e (walk this ancestors node acc) -> processed that (ref e.1) = true) ->
    walk that ancestors node acc' = acc'.
Proof.
  intros Hg. induction node as [data|parent childNodes IH] using Node_induction;
    intros ancestors acc acc' H; cbn [walk] in *; [reflexivity|].
  revert acc acc' H.
  apply (fold_left_settled _ _ (fun e => processed that (ref e.1) = true)).
  - apply List.Forall_forall. intros [data|el ch] _ acc0 e0 He0.
    + apply consider_incl, He0.
    + apply walk_incl, He0.
  - eapply List.Forall_impl; [|exact IH].
    intros [data|el ch] Hchild acc0 acc0' H0.
    + eapply consider_settled; eassumption.
    + eapply Hchild, H0.
Qed.

(** *** Marking and sending *)

Lemma mark_has_hsExtId this element uniqueId :
  String.eqb uniqueId EmptyString = false ->
  has_hsExtId (mark this element uniqueId) (ref element) = true.
Proof.
  intros H. unfold has_hsExtId, mark. cbn [hsExtId].
  rewrite lookup_insert_eq, H. reflexivity.
Qed.

Lemma mark_keeps_hsExtId this element uniqueId r :
  String.eqb uniqueId EmptyString = false ->
  has_hsExtId this r = true -> has_hsExtId (mark this element uniqueId) r = true.
Proof.
  intros H Hr. unfold has_hsExtId, mark in *. cbn [hsExtId].
  rewrite lookup_insert. destruct (decide (ref element = r)); [|exact Hr].
  rewrite H. reflexivity.
Qed.

Lemma mark_grows this element uniqueId :
  String.eqb uniqueId EmptyString = false -> grows this (mark this element uniqueId).
Proof.
  intros H r Hr. unfold processed in *. apply orb_true_iff in Hr as [Hr|Hr].
  - rewrite (mark_keeps_hsExtId _ _ _ _ H Hr). reflexivity.
  - apply orb_true_iff. right. apply bool_decide_eq_true in Hr.
    apply bool_decide_eq_true. cbn [mark processedElements]. set_solver.
Qed.

Lemma processTextElement_cases this el :
  (processTextElement this el = this
   /\ ((String.length (trim (text_of el.1 el.2)) < 10)%nat
       \/ has_hsExtId this (ref el.1) = true))
  \/ exists uniqueId,
       String.eqb uniqueId EmptyString = false
       /\ has_hsExtId this (ref el.1) = false
       /\ processTextElement this el
          = classifyText (mark this el.1 uniqueId) (trim (text_of el.1 el.2)) uniqueId.
Proof.
  unfold processTextElement.
  destruct (String.length (trim (text_of el.1 el.2)) <? 10)%nat eqn:Hlen.
  - left. split; [reflexivity|]. left. apply Nat.ltb_lt, Hlen.
  - destruct (has_hsExtId this (ref el.1)) eqn:Hid.
    + left. split; [reflexivity|]. right. reflexivity.
    + right. eexists. split; [|split; [reflexivity|reflexivity]]. reflexivity.
Qed.

Lemma processTextElement_grows this el : grows this (processTextElement this el).
Proof.
  destruct (processTextElement_cases this el) as [[-> _]|(uniqueId & Hne & _ & ->)].
  - apply grows_refl.
  - intros r Hr. apply (mark_grows this el.1 uniqueId Hne r Hr).
Qed.

Lemma processTextElement_marks this el :
  (10 <= String.length (trim (text_of el.1 el.2)))%nat ->
  processed (processTextElement this el) (ref el.1) = true.
Proof.
  intros Hlen.
  destruct (processTextElement_cases this el) as [[-> [H|H]]|(uniqueId & Hne & _ & ->)].
  - lia.
  - unfold processed. rewrite H. reflexivity.
  - unfold processed.
    change (has_hsExtId (classifyText (mark this el.1 uniqueId) _ uniqueId) (ref el.1))
      with (has_hsExtId (mark this el.1 uniqueId) (ref el.1)).
    rewrite (mark_has_hsExtId _ _ _ Hne). reflexivity.
Qed.

Lemma processAll_grows elements : forall this, grows this (processAll this elements).
Proof.
  induction elements as [|el elements IH]; intros this; [apply grows_refl|].
  eapply grows_trans; [apply (processTextElement_grows this el) | apply IH].
Qed.

Lemma processAll_marks elements :
  forall this e,
    (forall x, In x elements ->
               (10 <= String.length (trim (text_of x.1 x.2)))%nat) ->
    In e elements ->
    processed (processAll this elements) (ref e.1) = true.
Proof.
  induction elements as [|el elements IH]; intros this e Hall He; [destruct He|].
  destruct He as [<-|He].
  - apply (processAll_grows elements (processTextElement this el)).
    apply processTextElement_marks, Hall. left. reflexivity.
  - apply IH; [|exact He]. intros x Hx. apply Hall. right. exact Hx.
Qed.

(** C7.  [processTextElement] marks the element, by its attribute and in
    the set of processed elements, and sends the request from the state so
    marked; an element that carries its attribute is returned untouched, so
    nothing is sent for it again, and an attribute once set stays set.  A
    second run of [findTextElements] over the same subtree, in a state in
    which every element that the first run found has been processed,
    finds nothing; such is the state left by [processNewNode]. *)
Theorem extraction_at_most_once this ancestors node el :
  (processTextElement this el = this
   \/ exists uniqueId,
        has_hsExtId (mark this el.1 uniqueId) (ref el.1) = true
        /\ ref el.1 ∈ processedElements (mark this el.1 uniqueId)
        /\ processTextElement this el
           = classifyText (mark this el.1 uniqueId) (trim (text_of el.1 el.2)) uniqueId)
  /\ (has_hsExtId this (ref el.1) = true -> processTextElement this el = this)
  /\ (forall r, has_hsExtId this r = true ->
                has_hsExtId (processTextElement this el) r = true)
  /\ (forall that,
        grows this that ->
        (forall e, In e (findTextElements this ancestors node) ->
                   processed that (ref e.1) = true) ->
        findTextElements that ancestors node = [])
  /\ findTextElements (processNewNode this ancestors node) ancestors node = [].
Proof.
  assert (Hidem : forall that,
            grows this that ->
            (forall e, In e (findTextElements this ancestors node) ->
                       processed that (ref e.1) = true) ->
            findTextElements that ancestors node = []).
  { intros that Hg H. unfold findTextElements in *.
    eapply walk_settled; eassumption. }
  split; [|split; [|split; [|split; [exact Hidem|]]]].
  - destruct (processTextElement_cases this el) as [[H _]|(uniqueId & Hne & _ & H)];
      [left; exact H|].
    right. exists uniqueId. split; [apply mark_has_hsExtId, Hne|].
    split; [cbn [mark processedElements]; set_solver | exact H].
  - intros H. unfold processTextElement. rewrite H, orb_true_r. reflexivity.
  - intros r Hr.
    destruct (processTextElement_cases this el) as [[-> _]|(uniqueId & Hne & _ & ->)];
      [exact Hr|].
    apply (mark_keeps_hsExtId this el.1 uniqueId r Hne Hr).
  - apply Hidem; unfold processNewNode.
    + apply processAll_grows.
    + intros e He. apply processAll_marks; [|exact He].
      intros x Hx. unfold findTextElements in Hx.
      apply walk_found in Hx as [[]|Hx]. exact Hx.
Qed.

Lemma extraction_at_most_once_witness :
  findTextElements (processNewNode initial [] Samples.page) [] Samples.page = []
  /\ length (sent (processNewNode initial [] Samples.page)) = 2%nat
  /\ sent (processNewNode (processNewNode initial [] Samples.page) [] Samples.page)
     = sent (processNewNode initial [] Samples.page).
Proof.
  pose proof (extraction_at_most_once initial [] Samples.page
                (Samples.visible 1 "P", [])) as (_ & _ & _ & _ & H).
  split; [exact H|]. split; [reflexivity|].
  unfold processNewNode at 1. rewrite H. reflexivity.
Defined.

End ContentFacts.


(** * Further properties *)

(** ** The feedback store, continued *)

Module FeedbackLaws.
Import Data Chrome FeedbackManager Spec Terms FeedbackFacts.

#[local] Opaque LOG_CAP RECENT_CAP.

Lemma recompute_accuracy s :
  accuracy (recompute s) ==
    (if (0 <? falsePositives s + falseNegatives s + correctClassifications s)%nat
     then inject_Z (Z.of_nat (correctClassifications s))
          / inject_Z (Z.of_nat (falsePositives s + falseNegatives s
                                + correctClassifications s))
     else 0)
  /\ 0 <= accuracy (recompute s) /\ accuracy (recompute s) <= 1.
Proof.
  unfold recompute. cbn [accuracy].
  set (c := correctClassifications s).
  set (n := (falsePositives s + falseNegatives s + c)%nat).
  split; [reflexivity|].
  destruct (0 <? n)%nat eqn:E; [|split; discriminate].
  apply Nat.ltb_lt in E.
  assert (Hn : 0 < inject_Z (Z.of_nat n)).
  { change 0 with (inject_Z 0). rewrite <- Zlt_Qlt. lia. }
  split.
  - apply Qle_shift_div_l; [exact Hn|]. rewrite Qmult_0_l.
    change 0 with (inject_Z 0). rewrite <- Zle_Qle. lia.
  - apply Qle_shift_div_r; [exact Hn|]. rewrite Qmult_1_l.
    rewrite <- Zle_Qle. unfold n. lia.
Qed.

Lemma recompute_sound s : sound_accuracy (recompute s).
Proof.
  destruct (recompute_accuracy s) as (H1 & H2 & H3).
  unfold sound_accuracy. split; [|split; assumption].
  exact H1.
Qed.

(** X1.  [updateStats] never throws and writes nothing but the statistics:
    the log and the detection keys stay as they are.  The statistics are
    left as they were or replaced by statistics whose [accuracy] is
    [correct / (falsePositives + falseNegatives + correct)], or 0 when that
    sum is 0, and lies between 0 and 1, whatever was stored before and
    whatever the storage does. *)
Theorem updateStats_outcome fd w :
  exists w',
    updateStats fd w = (Returned tt, w')
    /\ sentinel_hg_feedback (local w') = sentinel_hg_feedback (local w)
    /\ stats (local w') = stats (local w)
    /\ recentDetections (local w') = recentDetections (local w)
    /\ (sentinel_hg_feedback_stats (local w') = sentinel_hg_feedback_stats (local w)
        \/ exists s, sentinel_hg_feedback_stats (local w') = Some s /\ sound_accuracy s).
Proof.
  destruct w as [l f c r b i].
  destruct f as [|[e1|] [|[e2|] f]];
    (eexists; split; [reflexivity|]; repeat (split; [reflexivity|]));
    first [ left; reflexivity
          | right; eexists; split; [reflexivity | apply recompute_sound] ].
Qed.

(** *** Reads *)

Lemma getFeedbackStats_read w :
  exists stats w',
    getFeedbackStats w = (Returned stats, w')
    /\ local w' = local w
    /\ (length (recentFeedback stats) <= 50)%nat
    /\ (goes_through 1 w = true ->
        recentFeedback stats = take 50 (log (local w))
        /\ totalFeedback stats = totalFeedback (current (local w))
        /\ falsePositives stats = falsePositives (current (local w))
        /\ falseNegatives stats = falseNegatives (current (local w))
        /\ correctClassifications stats = correctClassifications (current (local w))
        /\ accuracy stats = accuracy (current (local w)))
    /\ (goes_through 1 w = false -> stats = getDefaultStats).
Proof.
  destruct w as [l f c r b i].
  destruct f as [|[e1|] f]; cbn [goes_through quiet faults take forallb andb];
    (eexists _, _; split; [reflexivity|]; split; [reflexivity|]; split;
     [|split; [try discriminate|try discriminate]]);
    try (intros _; repeat split; reflexivity);
    try (cbn [recentFeedback getDefaultStats length]; lia);
    cbn [recentFeedback]; change 50%nat with RECENT_CAP;
    rewrite length_take; lia.
Qed.

(** X2.  The reads of the feedback store never throw and never write:
    [getFeedbackStats] returns the stored counters with the first 50 entries
    of the log, [getAllFeedback] the whole log and [exportFeedback] both;
    when the read is rejected they return the default statistics and the
    empty list instead.  [recentFeedback] never has more than 50 entries. *)
Theorem feedback_reads_are_safe w :
  (exists stats w',
     getFeedbackStats w = (Returned stats, w')
     /\ local w' = local w
     /\ (length (recentFeedback stats) <= 50)%nat
     /\ (goes_through 1 w = true -> recentFeedback stats = take 50 (log (local w)))
     /\ (goes_through 1 w = false -> stats = getDefaultStats))
  /\ (exists all w',
        getAllFeedback w = (Returned all, w')
        /\ local w' = local w
        /\ (goes_through 1 w = true -> all = log (local w))
        /\ (goes_through 1 w = false -> all = []))
  /\ (exists data w',
        exportFeedback w = (Returned data, w')
        /\ local w' = local w
        /\ exportDate data = clock w
        /\ (goes_through 1 w = true -> export_feedback data = log (local w))
        /\ (goes_through 1 w = false -> export_feedback data = [])).
Proof.
  split; [|split].
  - destruct (getFeedbackStats_read w) as (stats & w' & H1 & H2 & H3 & H4 & H5).
    exists stats, w'. repeat split; try assumption. intros H. apply H4, H.
  - destruct w as [l f c r b i].
    destruct f as [|[e1|] f]; cbn [goes_through quiet faults take forallb andb];
      (eexists _, _; split; [reflexivity|]; split; [reflexivity|]; split);
      first [discriminate | intros _; reflexivity].
  - destruct w as [l f c r b i].
    destruct f as [|[e1|] [|[e2|] f]]; cbn [goes_through quiet faults take forallb andb];
      (eexists _, _; split; [reflexivity|]; split; [reflexivity|];
       split; [reflexivity|]; split);
      first [discriminate | intros _; reflexivity].
Qed.

(** *** Frames *)

Lemma submitFeedback_frame input w :
  stats (local (snd (submitFeedback input w))) = stats (local w)
  /\ recentDetections (local (snd (submitFeedback input w))) = recentDetections (local w).
Proof.
  destruct w as [l f c r b i].
  destruct f as [|[e1|] [|[e2|] [|[e3|] [|[e4|] f]]]]; destruct r as [|r0 r];
    split; reflexivity.
Qed.

Lemma clearFeedback_cases w :
  match clearFeedback w with
  | (Thrown _, w') => local w' = local w
  | (Returned _, w') => local w' = remove_feedback (local w)
  end.
Proof.
  destruct w as [l f c r b i]. destruct f as [|[e1|] f]; reflexivity.
Qed.

(** *** The cap of the log *)

Lemma run_feedback_cap c w :
  (length (log (local w)) <= LOG_CAP)%nat ->
  (length (log (local (snd (run_feedback c w)))) <= LOG_CAP)%nat.
Proof.
  intros H. destruct c as [input|]; cbn [run_feedback].
  - pose proof (submitFeedback_cases input w) as Hc.
    destruct (submitFeedback input w) as [[u|e] w']; cbn [snd].
    + unfold log at 1. rewrite Hc. cbn. rewrite length_take. lia.
    + rewrite Hc. exact H.
  - pose proof (clearFeedback_cases w) as Hc.
    destruct (clearFeedback w) as [[u|e] w']; cbn [snd]; rewrite Hc;
      [cbn; lia | exact H].
Qed.

Lemma run_feedback_frame c w :
  stats (local (snd (run_feedback c w))) = stats (local w)
  /\ recentDetections (local (snd (run_feedback c w))) = recentDetections (local w).
Proof.
  destruct c as [input|]; cbn [run_feedback]; [apply submitFeedback_frame|].
  pose proof (clearFeedback_cases w) as Hc.
  destruct (clearFeedback w) as [[u|e] w']; cbn [snd]; rewrite Hc; split; reflexivity.
Qed.

(** X3.  Whatever calls of [submitFeedback] and [clearFeedback] are made,
    and whatever the storage does, a log of at most 1000 entries stays a log
    of at most 1000 entries, and the detection keys are never written. *)
Theorem feedback_log_stays_within_cap calls w :
  (length (log (local w)) <= 1000)%nat ->
  (length (log (local (run_feedbacks calls w))) <= 1000)%nat
  /\ stats (local (run_feedbacks calls w)) = stats (local w)
  /\ recentDetections (local (run_feedbacks calls w)) = recentDetections (local w).
Proof.
  change 1000%nat with LOG_CAP.
  revert w. induction calls as [|c calls IH]; intros w H; cbn [run_feedbacks].
  - repeat split. exact H.
  - destruct (IH (snd (run_feedback c w)) (run_feedback_cap c w H)) as (H1 & H2 & H3).
    destruct (run_feedback_frame c w) as [F1 F2].
    split; [exact H1|]. split; congruence.
Qed.

Lemma feedback_log_stays_within_cap_witness :
  (length (log (local (run_feedbacks
                         [call_submitFeedback (Samples.feedback_of correct);
                          call_clearFeedback;
                          call_submitFeedback (Samples.feedback_of false_positive)]
                         Samples.world_stats_write_fails))) <= 1000)%nat
  /\ stats (local (run_feedbacks
                     [call_submitFeedback (Samples.feedback_of correct);
                      call_clearFeedback;
                      call_submitFeedback (Samples.feedback_of false_positive)]
                     Samples.world_stats_write_fails))
     = stats (local Samples.world_stats_write_fails)
  /\ recentDetections
       (local (run_feedbacks
                 [call_submitFeedback (Samples.feedback_of correct);
                  call_clearFeedback;
                  call_submitFeedback (Samples.feedback_of false_positive)]
                 Samples.world_stats_write_fails))
     = recentDetections (local Samples.world_stats_write_fails).
Proof.
  apply (feedback_log_stays_within_cap
           [call_submitFeedback (Samples.feedback_of correct);
            call_clearFeedback;
            call_submitFeedback (Samples.feedback_of false_positive)]
           Samples.world_stats_write_fails).
  cbn. lia.
Defined.

(** *** Clearing *)



(** *** The statistics and the log *)





(** X6.  When, during a submission, the read of the statistics is rejected
    and their write goes through, the counters start again from the default
    statistics: whatever was stored, the statistics then count this
    submission alone, and the call returns without an error. *)
Theorem rejected_read_restarts_counters input w e f :
  faults w = None :: None :: Some e :: f ->
  hd None f = None ->
  exists w' s,
    submitFeedback input w = (Returned tt, w')
    /\ sentinel_hg_feedback_stats (local w') = Some s
    /\ totalFeedback s = 1%nat
    /\ falsePositives s = tick false_positive input
    /\ falseNegatives s = tick false_negative input
    /\ correctClassifications s = tick correct input
    /\ recentFeedback s = [].
Proof.
  destruct w as [l fs c r b i]. cbn [faults]. intros -> Hf.
  destruct f as [|[e4|] f]; try discriminate; destruct r as [|r0 r];
    (eexists _, _; split; [reflexivity|]; split; [reflexivity|]);
    cbn [entry]; unfold tick; destruct (type (userFeedback input)); repeat split.
Qed.

Lemma rejected_read_restarts_counters_witness :
  exists w' s,
    submitFeedback (Samples.feedback_of correct)
      {| local := local (snd (submitAll [Samples.feedback_of correct;
                                          Samples.feedback_of false_positive]
                                Samples.world0));
         faults := [None; None; Some "storage unavailable"];
         clock := 1700000000001%N; randoms := []; broadcasts := []; inferences := [] |}
    = (Returned tt, w')
    /\ sentinel_hg_feedback_stats (local w') = Some s
    /\ totalFeedback s = 1%nat
    /\ falsePositives s = 0%nat
    /\ falseNegatives s = 0%nat
    /\ correctClassifications s = 1%nat
    /\ recentFeedback s = [].
Proof.
  apply (rejected_read_restarts_counters (Samples.feedback_of correct)
           {| local := local (snd (submitAll [Samples.feedback_of correct;
                                               Samples.feedback_of false_positive]
                                     Samples.world0));
              faults := [None; None; Some "storage unavailable"];
              clock := 1700000000001%N; randoms := []; broadcasts := [];
              inferences := [] |}
           "storage unavailable" []); reflexivity.
Defined.

(** X7.  After a submission whose four storage calls go through, the
    entry built from the argument, with its id and timestamp, is the head
    of the stored log, and the stored statistics list as recent feedback
    the 50 newest entries of that log, the new entry included. *)
Theorem recent_feedback_follows_log input w :
  goes_through 4 w = true ->
  exists w',
    submitFeedback input w = (Returned tt, w')
    /\ head (log (local w')) = Some (stamped input w)
    /\ recentFeedback (current (local w')) = take 50 (log (local w')).
Proof.
  intros Hw. destruct (submitFeedback_through input w Hw) as (w' & Hrun & Hl & _).
  exists w'. split; [exact Hrun|]. rewrite Hl.
  split; [reflexivity|]. unfold after_submit. cbn [stamped entry].
  destruct (type (userFeedback input)); reflexivity.
Qed.

Lemma recent_feedback_follows_log_witness :
  exists w',
    submitFeedback (Samples.feedback_of false_positive) Samples.world0 = (Returned tt, w')
    /\ head (log (local w'))
       = Some (stamped (Samples.feedback_of false_positive) Samples.world0)
    /\ recentFeedback (current (local w')) = take 50 (log (local w')).
Proof.
  apply (recent_feedback_follows_log (Samples.feedback_of false_positive) Samples.world0).
  reflexivity.
Defined.

End FeedbackLaws.

(** ** The detection store and the handlers of the worker *)

Module WorkerLaws.
Import ModelConfig Data Chrome FeedbackManager BackgroundServiceWorker Spec Terms.
Import FeedbackFacts.

#[local] Opaque LOG_CAP RECENT_CAP.

(** *** One detection *)

Lemma storeDetection_cases text c w :
  exists w',
    storeDetection text c w = (Returned tt, w')
    /\ ((local w' = local w /\ broadcasts w' = broadcasts w)
        \/ (local w'
            = set_detections
                (take 50 (detection_of text c w :: detections (local w)))
                {| detected := detected (detection_stats (local w)) + 1;
                   filtered := filtered (detection_stats (local w)) + 1 |}
                (local w)
            /\ broadcasts w' = broadcasts w ++ ["statsUpdated"])).
Proof.
  destruct w as [l f c0 r b i].
  destruct f as [|[e1|] [|[e2|] f]]; eexists; (split; [reflexivity|]);
    solve [left; split; reflexivity | right; split; reflexivity].
Qed.

Lemma storeDetection_through text c w :
  goes_through 2 w = true ->
  exists w',
    storeDetection text c w = (Returned tt, w')
    /\ local w'
       = set_detections
           (take 50 (detection_of text c w :: detections (local w)))
           {| detected := detected (detection_stats (local w)) + 1;
              filtered := filtered (detection_stats (local w)) + 1 |}
           (local w)
    /\ broadcasts w' = broadcasts w ++ ["statsUpdated"]
    /\ faults w' = drop 2 (faults w).
Proof.
  destruct w as [l f c0 r b i]. unfold goes_through. cbn [faults].
  destruct f as [|[e1|] [|[e2|] f]]; cbn [quiet take forallb andb];
    solve [discriminate
          | intros _; eexists; split; [reflexivity|]; split; [reflexivity|];
            split; reflexivity].
Qed.

Lemma clearStats_cases w :
  exists w',
    clearStats w = (Returned tt, w')
    /\ broadcasts w' = broadcasts w
    /\ (local w' = local w
        \/ local w'
           = {| stats := Some {| detected := 0; filtered := 0 |};
                recentDetections := Some [];
                sentinel_hg_feedback := sentinel_hg_feedback (local w);
                sentinel_hg_feedback_stats := sentinel_hg_feedback_stats (local w) |}).
Proof.
  destruct w as [l f c0 r b i].
  destruct f as [|[e1|] f]; eexists; (split; [reflexivity|]); (split; [reflexivity|]);
    solve [left; reflexivity | right; reflexivity].
Qed.

(** X8.  [storeDetection] never throws and never writes the feedback
    keys.  When its read and its write go through, it writes the new
    detection, with the text given by the caller, at the head of the list
    cut to 50, adds one to both counters and sends one [statsUpdated]
    notification.  When the read or the write is rejected, it leaves the
    store as it was and sends no notification. *)
Theorem storeDetection_outcome text c w :
  exists w',
    storeDetection text c w = (Returned tt, w')
    /\ sentinel_hg_feedback (local w') = sentinel_hg_feedback (local w)
    /\ sentinel_hg_feedback_stats (local w') = sentinel_hg_feedback_stats (local w)
    /\ (goes_through 2 w = true ->
        recentDetections (local w')
        = Some (take 50 (detection_of text c w :: detections (local w)))
        /\ stats (local w')
           = Some {| detected := detected (detection_stats (local w)) + 1;
                     filtered := filtered (detection_stats (local w)) + 1 |}
        /\ broadcasts w' = broadcasts w ++ ["statsUpdated"])
    /\ (goes_through 2 w = false ->
        local w' = local w /\ broadcasts w' = broadcasts w).
Proof.
  destruct w as [l f c0 r b i]. unfold goes_through. cbn [faults].
  destruct f as [|[e1|] [|[e2|] f]]; cbn [quiet take forallb andb];
    (eexists; split; [reflexivity|]; split; [reflexivity|]; split; [reflexivity|]);
    (split; [first [discriminate | intros _; repeat split]
            | first [discriminate | intros _; split; reflexivity]]).
Qed.

(** *** Sequences of calls *)

Lemma run_detection_invariant c w :
  detections_agree (local w) ->
  (length (detections (local w)) <= 50)%nat ->
  exists w',
    run_detection c w = (Returned tt, w')
    /\ detections_agree (local w')
    /\ (length (detections (local w')) <= 50)%nat
    /\ sentinel_hg_feedback (local w') = sentinel_hg_feedback (local w)
    /\ sentinel_hg_feedback_stats (local w') = sentinel_hg_feedback_stats (local w).
Proof.
  intros Ha Hlen. destruct c as [text c|]; cbn [run_detection].
  - destruct (storeDetection_cases text c w) as (w' & Hrun & [[Hl _]|[Hl _]]);
      exists w'; (split; [exact Hrun|]); rewrite Hl.
    + repeat split; assumption.
    + split.
      { unfold detections_agree, detection_stats in *.
        cbn [set_detections stats detected filtered].
        destruct (stats (local w)) as [s|]; cbn; lia. }
      split; [|split; reflexivity].
      unfold detections at 1. cbn -[take]. rewrite length_take. lia.
  - destruct (clearStats_cases w) as (w' & Hrun & _ & [Hl|Hl]);
      exists w'; (split; [exact Hrun|]); rewrite Hl.
    + repeat split; assumption.
    + split; [reflexivity|]. split; [cbn; lia|]. split; reflexivity.
Qed.

(** X9.  Whatever the storage does and in whatever order [storeDetection]
    and [clearStats] are called, no call throws, the counters [detected]
    and [filtered] stay equal to each other, the list of recent detections
    never holds more than 50 entries, and the feedback log and statistics
    are not written. *)
Theorem detection_store_invariant calls :
  forall w,
    detections_agree (local w) ->
    (length (detections (local w)) <= 50)%nat ->
    exists w',
      run_detections calls w = (Returned tt, w')
      /\ detections_agree (local w')
      /\ (length (detections (local w')) <= 50)%nat
      /\ sentinel_hg_feedback (local w') = sentinel_hg_feedback (local w)
      /\ sentinel_hg_feedback_stats (local w') = sentinel_hg_feedback_stats (local w).
Proof.
  induction calls as [|c calls IH]; intros w Ha Hlen.
  - exists w. repeat split; assumption.
  - destruct (run_detection_invariant c w Ha Hlen) as (w1 & Hrun & Ha1 & Hlen1 & Hf & Hs).
    destruct (IH w1 Ha1 Hlen1) as (w' & Hrun' & Ha' & Hlen' & Hf' & Hs').
    exists w'. cbn [run_detections]. unfold bind. rewrite Hrun.
    split; [exact Hrun'|]. split; [exact Ha'|]. split; [exact Hlen'|].
    split; congruence.
Qed.

Lemma detection_store_invariant_witness :
  exists w',
    run_detections
      [ call_storeDetection Samples.insult unavailable; call_clearStats;
        call_storeDetection Samples.insult unavailable ]
      Samples.world_stats_write_fails = (Returned tt, w')
    /\ detections_agree (local w')
    /\ (length (detections (local w')) <= 50)%nat
    /\ sentinel_hg_feedback (local w')
       = sentinel_hg_feedback (local Samples.world_stats_write_fails)
    /\ sentinel_hg_feedback_stats (local w')
       = sentinel_hg_feedback_stats (local Samples.world_stats_write_fails).
Proof.
  apply (detection_store_invariant
           [ call_storeDetection Samples.insult unavailable; call_clearStats;
             call_storeDetection Samples.insult unavailable ]
           Samples.world_stats_write_fails); [exact I | cbn; lia].
Defined.

(** X10.  Detections stored one after the other while the storage calls go
    through are all counted and kept in order: after [N] calls both
    counters have grown by [N], the stored list holds the texts of the new
    detections, the newest first, before the older ones, cut to 50, and
    [N] notifications have been sent. *)
Theorem detections_counted items :
  forall w,
    (length (detections (local w)) <= 50)%nat ->
    goes_through (2 * length items) w = true ->
    exists w',
      run_detections (map (fun x => call_storeDetection x.1 x.2) items) w
      = (Returned tt, w')
      /\ detected (detection_stats (local w'))
         = (detected (detection_stats (local w)) + length items)%nat
      /\ filtered (detection_stats (local w'))
         = (filtered (detection_stats (local w)) + length items)%nat
      /\ map detection_text (detections (local w'))
         = take 50 (rev (map fst items) ++ map detection_text (detections (local w)))
      /\ broadcasts w' = broadcasts w ++ repeat "statsUpdated" (length items).
Proof.
  induction items as [|[text c] items IH]; intros w Hlen Hw.
  - exists w. cbn [map run_detections length rev app repeat].
    split; [reflexivity|]. rewrite !Nat.add_0_r, app_nil_r.
    split; [reflexivity|]. split; [reflexivity|]. split; [|reflexivity].
    rewrite take_ge; [reflexivity|]. rewrite length_map. exact Hlen.
  - cbn [length] in Hw.
    replace (2 * S (length items))%nat with (2 + 2 * length items)%nat in Hw by lia.
    assert (H2 : goes_through 2 w = true).
    { unfold goes_through in *. rewrite quiet_add in Hw.
      apply andb_true_iff in Hw. apply Hw. }
    destruct (storeDetection_through text c w H2) as (w1 & Hrun & Hl & Hb & Hf).
    destruct (goes_through_add 2 (2 * length items) w w1 Hw Hf) as [_ Hw1].
    assert (Hd : detections (local w1)
                 = take 50 (detection_of text c w :: detections (local w)))
      by (rewrite Hl; reflexivity).
    assert (Hs : detection_stats (local w1)
                 = {| detected := detected (detection_stats (local w)) + 1;
                      filtered := filtered (detection_stats (local w)) + 1 |})
      by (rewrite Hl; reflexivity).
    destruct (IH w1) as (w' & Hrun' & H1 & H3 & H4 & H5);
      [rewrite Hd, length_take; lia | exact Hw1 |].
    exists w'. cbn [map run_detections run_detection fst snd]. unfold bind.
    rewrite Hrun. split; [exact Hrun'|].
    rewrite H1, H3, H4, H5, Hs, Hd, Hb. cbn [detected filtered length].
    split; [lia|]. split; [lia|]. split.
    + rewrite <- List.firstn_map, take_app_take by lia.
      cbn [rev map detection_of detection_text]. rewrite <- app_assoc. reflexivity.
    + cbn [repeat]. rewrite <- app_assoc. reflexivity.
Qed.

Lemma detections_counted_witness :
  exists w',
    run_detections
      (map (fun x => call_storeDetection x.1 x.2)
         [(Samples.insult, unavailable); ("second detection", unavailable)])
      Samples.world0 = (Returned tt, w')
    /\ detected (detection_stats (local w'))
       = (detected (detection_stats (local Samples.world0)) + 2)%nat
    /\ filtered (detection_stats (local w'))
       = (filtered (detection_stats (local Samples.world0)) + 2)%nat
    /\ map detection_text (detections (local w'))
       = take 50 (rev (map fst [(Samples.insult, unavailable);
                                ("second detection", unavailable)])
                  ++ map detection_text (detections (local Samples.world0)))
    /\ broadcasts w' = broadcasts Samples.world0 ++ repeat "statsUpdated" 2.
Proof.
  apply (detections_counted
           [(Samples.insult, unavailable); ("second detection", unavailable)]
           Samples.world0); [cbn; lia | reflexivity].
Defined.

(** *** The feedback handlers *)

(** X11.  [handleFeedbackSubmission] always answers, whatever the storage
    does.  When it answers [success: true], the entry at the head of the
    log carries the text, verdict, user feedback and page context of the
    message, and its metadata are the selected model and the threshold of
    the worker and the version 0.1.0, whatever metadata the message held.
    Otherwise it answers [success: false] with an error, and the store is
    as it was. *)
Theorem handleFeedbackSubmission_outcome this feedback w :
  exists response w',
    handleFeedbackSubmission this feedback w = (Returned response, w')
    /\ ((feedback_success response = true
         /\ feedback_error response = None
         /\ exists fd,
              head (log (local w')) = Some fd
              /\ Data.originalText (entry fd) = Data.originalText feedback
              /\ Data.classification (entry fd) = Data.classification feedback
              /\ userFeedback (entry fd) = userFeedback feedback
              /\ context (entry fd) = context feedback
              /\ metadata (entry fd)
                 = {| modelUsed := selectedModel (settings this);
                      Data.confidenceThreshold := confidence (settings this);
                      extensionVersion := "0.1.0" |})
        \/ (feedback_success response = false
            /\ (exists e, feedback_error response = Some e)
            /\ local w' = local w)).
Proof.
  destruct w as [l f c r b i].
  destruct f as [|[e1|] [|[e2|] [|[e3|] [|[e4|] f]]]]; destruct r as [|r0 r];
    eexists _, _; (split; [reflexivity|]);
    solve [ right; split; [reflexivity|]; split; [eexists; reflexivity | reflexivity]
          | left; split; [reflexivity|]; split; [reflexivity|];
            eexists; split; [reflexivity|]; repeat split ].
Qed.

(** X12.  The handlers that read the feedback never answer with an error:
    [handleGetFeedbackStats] and [handleExportFeedback] answer
    [success: true] with statistics and with export data whatever the
    storage does, and leave the store as it is.  [handleClearFeedback]
    answers [success: true] and has removed both keys when the removal
    goes through, and answers [success: false] with the error of the
    storage, the store unchanged, when the removal is rejected. *)
Theorem feedback_handlers_answer w :
  (exists response w' stats,
     handleGetFeedbackStats w = (Returned response, w')
     /\ feedback_success response = true
     /\ feedback_error response = None
     /\ feedback_stats response = Some stats
     /\ local w' = local w)
  /\ (exists response w' data,
        handleExportFeedback w = (Returned response, w')
        /\ feedback_success response = true
        /\ feedback_error response = None
        /\ feedback_data response = Some data
        /\ local w' = local w)
  /\ (goes_through 1 w = true ->
      exists w',
        handleClearFeedback w = (Returned succeeded, w')
        /\ local w' = remove_feedback (local w))
  /\ (forall e rest,
        faults w = Some e :: rest ->
        exists w',
          handleClearFeedback w = (Returned (failed e), w')
          /\ local w' = local w).
Proof.
  destruct w as [l f c r b i].
  split; [|split; [|split]].
  - destruct f as [|[e1|] f]; eexists _, _, _; repeat split.
  - destruct f as [|[e1|] [|[e2|] f]]; eexists _, _, _; repeat split.
  - unfold goes_through. cbn [faults].
    destruct f as [|[e1|] f]; cbn [quiet take forallb andb];
      solve [discriminate | intros _; eexists; split; reflexivity].
  - cbn [faults]. intros e rest ->. eexists; split; reflexivity.
Qed.

End WorkerLaws.

(** ** The classification engine *)

Module EngineLaws.
Import JsString ModelConfig Data Chrome BackgroundServiceWorker Spec Terms.
Import EngineFacts.

(** *** Keywords *)

Lemma every_app P a b :
  every P (String.append a b) = every P a && every P b.
Proof.
  induction a as [|c a IH]; [reflexivity|].
  rewrite PreprocessFacts.append_cons. cbn [every]. rewrite IH, andb_assoc. reflexivity.
Qed.

Lemma every_clean P w : every P w = true -> every P (clean w) = true.
Proof.
  induction w as [|c w IH]; [reflexivity|]. cbn [every clean]. intros H.
  apply andb_true_iff in H as [Hc Hw].
  destruct (is_word_char c); [cbn [every]; rewrite Hc; apply IH, Hw | apply IH, Hw].
Qed.

Lemma every_word_clean w : every is_word_char (clean w) = true.
Proof.
  induction w as [|c w IH]; [reflexivity|]. cbn [clean].
  destruct (is_word_char c) eqn:E; [cbn [every]; rewrite E; exact IH | exact IH].
Qed.

Lemma lower_lower c : lower (lower c) = lower c.
Proof. destruct c as [[] [] [] [] [] [] [] []]; reflexivity. Qed.

Lemma every_lowered text :
  every (fun c => Ascii.eqb (lower c) c) (toLowerCase text) = true.
Proof.
  induction text as [|c text IH]; [reflexivity|]. cbn [toLowerCase every].
  rewrite lower_lower, Ascii.eqb_refl. exact IH.
Qed.

Lemma lowered_fixed k :
  every (fun c => Ascii.eqb (lower c) c) k = true -> toLowerCase k = k.
Proof.
  induction k as [|c k IH]; [reflexivity|]. cbn [every toLowerCase]. intros H.
  apply andb_true_iff in H as [Hc Hk]. apply Ascii.eqb_eq in Hc.
  rewrite Hc, (IH Hk). reflexivity.
Qed.

Lemma split_spaces_every P s :
  forall cur inRun,
    every P cur = true -> every P s = true ->
    Forall (fun piece => every P piece = true) (split_spaces cur inRun s).
Proof.
  induction s as [|c s IH]; intros cur inRun Hcur Hs; cbn [split_spaces].
  - constructor; [exact Hcur | constructor].
  - cbn [every] in Hs. apply andb_true_iff in Hs as [Hc Hs].
    destruct (is_space c).
    + destruct inRun; [apply IH; [reflexivity | exact Hs]|].
      constructor; [exact Hcur | apply IH; [reflexivity | exact Hs]].
    + apply IH; [|exact Hs]. rewrite every_app, Hcur. cbn [every]. rewrite Hc. reflexivity.
Qed.

Lemma bump_keys w wordCount k :
  In k (map fst (bump w wordCount)) -> k = w \/ In k (map fst wordCount).
Proof.
  induction wordCount as [|[k0 n] rest IH]; cbn [bump map fst In].
  - intros [<-|[]]. left. reflexivity.
  - destruct (String.eqb k0 w) eqn:E; cbn [map fst In]; [tauto|].
    intros [H|H]; [tauto|]. destruct (IH H); tauto.
Qed.

Lemma bump_NoDup w wordCount :
  List.NoDup (map fst wordCount) -> List.NoDup (map fst (bump w wordCount)).
Proof.
  induction wordCount as [|[k0 n] rest IH]; cbn [bump map fst]; intros H.
  - constructor; [intros [] | constructor].
  - apply List.NoDup_cons_iff in H as [Hk Hrest].
    destruct (String.eqb k0 w) eqn:E; cbn [map fst].
    + constructor; assumption.
    + constructor; [|apply IH, Hrest].
      intros Hin. apply bump_keys in Hin as [->|Hin]; [|contradiction].
      rewrite String.eqb_refl in E. discriminate.
Qed.

Lemma insert_entry_perm a sorted : insert_entry a sorted ≡ₚ a :: sorted.
Proof.
  induction sorted as [|b rest IH]; cbn [insert_entry]; [reflexivity|].
  destruct (a.2 <? b.2)%nat; [|reflexivity].
  rewrite IH. apply perm_swap.
Qed.

Lemma sort_entries_perm entries : sort_entries entries ≡ₚ entries.
Proof.
  induction entries as [|a entries IH]; [reflexivity|].
  cbn [sort_entries fold_right]. fold (sort_entries entries).
  rewrite insert_entry_perm, IH. reflexivity.
Qed.

Lemma NoDup_take_of {A} n (l : list A) : List.NoDup l -> List.NoDup (take n l).
Proof.
  intros H. rewrite <- (take_drop n l) in H. exact (List.NoDup_app_remove_r _ _ H).
Qed.

(** X13.  [extractKeywords] returns at most five keywords, all different;
    each has more than three characters, all of them letters, digits or
    the underscore, is in lower case, and is none of the common words. *)
Theorem extractKeywords_sound text :
  (length (extractKeywords text) <= 5)%nat
  /\ List.NoDup (extractKeywords text)
  /\ Forall (fun k => (3 < String.length k)%nat
                      /\ every is_word_char k = true
                      /\ toLowerCase k = k
                      /\ ~ In k commonWords)
       (extractKeywords text).
Proof.
  unfold extractKeywords.
  set (step := fun (wordCount : list (string * nat)) (word : string) => _).
  set (words := split_spaces EmptyString false (toLowerCase text)).
  set (good := fun k => (3 < String.length k)%nat
                        /\ every is_word_char k = true
                        /\ toLowerCase k = k
                        /\ ~ In k commonWords).
  assert (Hwords : Forall (fun w => every (fun c => Ascii.eqb (lower c) c) w = true) words).
  { apply split_spaces_every; [reflexivity | apply every_lowered]. }
  assert (Hfold : forall wordCount,
             List.NoDup (map fst wordCount) -> Forall good (map fst wordCount) ->
             List.NoDup (map fst (fold_left step words wordCount))
             /\ Forall good (map fst (fold_left step words wordCount))).
  { induction Hwords as [|w ws Hw _ IH]; intros wordCount Hnd Hgood; [split; assumption|].
    cbn [fold_left]. apply IH.
    - unfold step. destruct (_ && _); [apply bump_NoDup, Hnd | exact Hnd].
    - unfold step.
      destruct ((3 <? String.length (clean w))%nat
                && negb (existsb (String.eqb (clean w)) commonWords)) eqn:E;
        [|exact Hgood].
      apply andb_true_iff in E as [Hlen Hcommon].
      apply Nat.ltb_lt in Hlen. apply negb_true_iff in Hcommon.
      apply List.Forall_forall. intros k Hk.
      apply bump_keys in Hk as [->|Hk];
        [|exact (proj1 (List.Forall_forall _ _) Hgood k Hk)].
      split; [exact Hlen|]. split; [apply every_word_clean|].
      split; [apply lowered_fixed, every_clean, Hw|].
      intros Hin.
      assert (existsb (String.eqb (clean w)) commonWords = true); [|congruence].
      apply List.existsb_exists. exists (clean w). split; [exact Hin|].
      apply String.eqb_refl. }
  destruct (Hfold [] ltac:(constructor) ltac:(constructor)) as [Hnd Hgood].
  rewrite <- (Permutation_map fst (sort_entries_perm _)) in Hnd, Hgood.
  rewrite <- List.firstn_map.
  split; [rewrite length_take; lia|].
  split; [apply NoDup_take_of, Hnd | apply Forall_take, Hgood].
Qed.

(** *** The model table *)

(** X14.  [getCurrentModelConfig] always returns an entry of the model
    table: the first one whose [modelId] is the selected model, and the
    default entry when the table has no entry with the selected model. *)
Theorem getCurrentModelConfig_listed this :
  In (getCurrentModelConfig this) HATE_SPEECH_MODELS
  /\ (modelId (getCurrentModelConfig this) = selectedModel (settings this)
      \/ (getCurrentModelConfig this = DEFAULT_MODEL
          /\ Forall (fun model => modelId model <> selectedModel (settings this))
               HATE_SPEECH_MODELS)).
Proof.
  unfold getCurrentModelConfig.
  destruct (List.find _ HATE_SPEECH_MODELS) as [model|] eqn:E; cbn [default].
  - apply List.find_some in E as [Hin Heq]. apply String.eqb_eq in Heq.
    split; [exact Hin | left; exact Heq].
  - split; [left; reflexivity|]. right. split; [reflexivity|].
    apply List.Forall_forall. intros model Hin Heq.
    pose proof (List.find_none _ _ E model Hin) as Hne. cbv beta in Hne.
    apply String.eqb_neq in Hne. contradiction.
Qed.

(** *** The effects of a classification *)

(** X15.  [classifyText] always returns a verdict.  It writes nothing to
    the store, consumes no storage call and sends no message; it calls the
    model at most once, on the preprocessed text.  A hateful verdict
    carries the keywords of the preprocessed text, a normal verdict no
    keywords.  When no model is held, the model is not loaded or the call
    of the model throws, the verdict is the fallback one. *)
Theorem classifyText_effects this text w :
  exists r w',
    classifyText this text w = (Returned r, w')
    /\ local w' = local w /\ faults w' = faults w /\ broadcasts w' = broadcasts w
    /\ (inferences w' = inferences w
        \/ inferences w' = inferences w ++ [preprocessText text])
    /\ (label r = label_hateful -> keywords r = extractKeywords (preprocessText text))
    /\ (label r = label_normal -> keywords r = [])
    /\ (isModelLoaded this = false -> r = unavailable /\ w' = w)
    /\ match classifier this with
       | None => r = unavailable /\ w' = w
       | Some model =>
           forall e, isModelLoaded this = true ->
                     model (preprocessText text) = Thrown e -> r = unavailable
       end.
Proof.
  rewrite classifyText_eq, classifyWithAI_eq.
  destruct (classifier this) as [model|] eqn:Hc.
  - destruct (isModelLoaded this) eqn:Hl; cbn [andb].
    + rewrite bool_decide_eq_true_2 by eauto.
      destruct (model (preprocessText text)) as [out|e] eqn:Hm.
      * eexists _, _. split; [reflexivity|]. repeat (split; [reflexivity|]).
        split; [right; reflexivity|].
        unfold conclude. destruct (_ && _); cbn [label keywords].
        -- split; [reflexivity|]. split; [discriminate|]. split; discriminate.
        -- split; [discriminate|]. split; [reflexivity|]. split; discriminate.
      * eexists _, _. split; [reflexivity|]. repeat (split; [reflexivity|]).
        split; [right; reflexivity|]. split; [discriminate|].
        split; [reflexivity|]. split; [discriminate|]. reflexivity.
    + eexists _, _. split; [reflexivity|]. repeat (split; [reflexivity|]).
      split; [left; reflexivity|]. split; [discriminate|].
      split; [reflexivity|]. split; [split; reflexivity|]. discriminate.
  - rewrite andb_comm. cbn [andb].
    assert (bool_decide (is_Some (@None Classifier)) = false) as ->
        by (apply bool_decide_eq_false_2; intros [? ?]; discriminate).
    cbn [andb].
    eexists _, _. split; [reflexivity|]. repeat (split; [reflexivity|]).
    split; [left; reflexivity|]. split; [discriminate|].
    split; [reflexivity|]. split; split; reflexivity.
Qed.

(** X16.  When the model answers with one object instead of an array, the
    verdict is hateful exactly when the label of the object contains a
    hateful string of the model and its score reaches the threshold; the
    normal strings are not consulted.  The confidence is then the score
    capped at 0.95, and for a normal verdict the score raised to 0.5. *)
Theorem single_answer_verdict this model text p w :
  isModelLoaded this = true ->
  classifier this = Some model ->
  model (preprocessText text) = Returned (OutputObject p) ->
  exists r w',
    classifyText this text w = (Returned r, w')
    /\ (label r = label_hateful
        <-> hateful_label (getCurrentModelConfig this) p = true
            /\ confidence (settings this) <= score_of p)
    /\ (label r = label_hateful -> Data.confidence r = Qmin (95 # 100) (score_of p))
    /\ (label r = label_normal -> Data.confidence r = Qmax (1 # 2) (score_of p)).
Proof.
  intros Hl Hc Hm. rewrite classifyText_eq, classifyWithAI_eq, Hl, Hc, Hm.
  rewrite bool_decide_eq_true_2 by eauto. cbn [andb].
  eexists _, _. split; [reflexivity|].
  assert (Hv : maxConfidence (judge (getCurrentModelConfig this) (OutputObject p))
               = score_of p
               /\ isHateful (judge (getCurrentModelConfig this) (OutputObject p))
                  = hateful_label (getCurrentModelConfig this) p).
  { cbn [judge]. unfold single, hateful_label. destruct (some_included _ _); split; reflexivity. }
  destruct Hv as [Hs Hh]. split.
  - rewrite conclude_hateful, Hs, Hh. reflexivity.
  - unfold conclude. rewrite Hs. destruct (_ && _); cbn [label Data.confidence];
      split; solve [reflexivity | discriminate].
Qed.

Lemma single_answer_verdict_witness :
  exists r w',
    classifyText
      (Samples.loaded_as "unitary/toxic-bert"
         (OutputObject (Samples.prediction "not-toxic" (9 # 10))) (7 # 10))
      Samples.insult Samples.world0 = (Returned r, w')
    /\ (label r = label_hateful
        <-> hateful_label
              (getCurrentModelConfig
                 (Samples.loaded_as "unitary/toxic-bert"
                    (OutputObject (Samples.prediction "not-toxic" (9 # 10))) (7 # 10)))
              (Samples.prediction "not-toxic" (9 # 10)) = true
            /\ confidence
                 (settings
                    (Samples.loaded_as "unitary/toxic-bert"
                       (OutputObject (Samples.prediction "not-toxic" (9 # 10))) (7 # 10)))
               <= score_of (Samples.prediction "not-toxic" (9 # 10)))
    /\ (label r = label_hateful
        -> Data.confidence r
           = Qmin (95 # 100) (score_of (Samples.prediction "not-toxic" (9 # 10))))
    /\ (label r = label_normal
        -> Data.confidence r
           = Qmax (1 # 2) (score_of (Samples.prediction "not-toxic" (9 # 10)))).
Proof.
  apply (single_answer_verdict
           (Samples.loaded_as "unitary/toxic-bert"
              (OutputObject (Samples.prediction "not-toxic" (9 # 10))) (7 # 10))
           (fun _ => Returned (OutputObject (Samples.prediction "not-toxic" (9 # 10))))
           Samples.insult (Samples.prediction "not-toxic" (9 # 10)) Samples.world0);
    reflexivity.
Defined.

Lemma loop_skips cfg l :
  Forall (fun p => hateful_label cfg p = false /\ normal_label cfg p = false) l ->
  forall v, fold_left (visit cfg) l v = v.
Proof.
  induction 1 as [|p l [Hh Hn] _ IH]; intros v; [reflexivity|]. cbn [fold_left].
  assert (visit cfg v p = v) as ->; [|apply IH].
  unfold visit. unfold hateful_label in Hh. unfold normal_label in Hn.
  rewrite Hh, Hn. reflexivity.
Qed.

(** X17.  When the model answers with an array in which no label is known
    to the configuration of the selected model, the empty array included,
    or with a value that is neither an array nor an object, the verdict is
    normal with confidence 0.5 and without keywords, whatever the
    scores and the threshold. *)
Theorem unknown_labels_are_normal this model text out w :
  isModelLoaded this = true ->
  classifier this = Some model ->
  model (preprocessText text) = Returned out ->
  (out = OutputOther
   \/ exists l,
        out = OutputArray l
        /\ Forall (fun p => hateful_label (getCurrentModelConfig this) p = false
                            /\ normal_label (getCurrentModelConfig this) p = false) l) ->
  exists r w',
    classifyText this text w = (Returned r, w')
    /\ label r = label_normal
    /\ Data.confidence r == 1 # 2
    /\ keywords r = [].
Proof.
  intros Hl Hc Hm Hout. rewrite classifyText_eq, classifyWithAI_eq, Hl, Hc, Hm.
  rewrite bool_decide_eq_true_2 by eauto. cbn [andb].
  eexists _, _. split; [reflexivity|].
  assert (Hj : judge (getCurrentModelConfig this) out = start).
  { destruct Hout as [->|(l & -> & Hall)]; [reflexivity|]. apply loop_skips, Hall. }
  rewrite Hj. split; [reflexivity|]. split; reflexivity.
Qed.

Lemma unknown_labels_are_normal_witness :
  exists r w',
    classifyText (Samples.loaded (OutputArray [Samples.prediction "LABEL_1" (99 # 100)])
                    (1 # 10))
      Samples.insult Samples.world0 = (Returned r, w')
    /\ label r = label_normal
    /\ Data.confidence r == 1 # 2
    /\ keywords r = [].
Proof.
  apply (unknown_labels_are_normal
           (Samples.loaded (OutputArray [Samples.prediction "LABEL_1" (99 # 100)]) (1 # 10))
           (fun _ => Returned (OutputArray [Samples.prediction "LABEL_1" (99 # 100)]))
           Samples.insult
           (OutputArray [Samples.prediction "LABEL_1" (99 # 100)]) Samples.world0);
    try reflexivity.
  right. exists [Samples.prediction "LABEL_1" (99 # 100)]. split; [reflexivity|].
  repeat constructor.
Defined.

(** *** A well-formed request *)

(** X18.  A request whose text is a non-empty string is always answered
    with [success: true], the verdict of [classifyText], the element id of
    the request and the text as it was received; no failure of the storage
    turns the answer into an error.  A normal verdict stores nothing; a
    hateful verdict is handed to [storeDetection] with the received text. *)
Theorem classification_request_answered this s id w :
  s <> EmptyString ->
  exists c w1 w',
    classifyText this s w = (Returned c, w1)
    /\ handleClassificationRequest this {| text := JsString s; elementId := id |} w
       = (Returned {| success := true; classification := Some c;
                      response_elementId := id; error := None;
                      originalText := Some s |}, w')
    /\ (label c = label_normal -> w' = w1)
    /\ (label c = label_hateful -> storeDetection s c w1 = (Returned tt, w')).
Proof.
  intros Hs. apply String.eqb_neq in Hs.
  destruct (classifyText_returns this s w) as (c & w1 & Hc).
  unfold handleClassificationRequest.
  cbn [BackgroundServiceWorker.text elementId truthy typeof string_value].
  rewrite Hs. cbn [negb orb String.eqb Ascii.eqb Bool.eqb andb].
  unfold try_catch, bind. rewrite Hc.
  destruct (label c) eqn:Hlabel.
  - destruct (WorkerLaws.storeDetection_cases s c w1) as (w' & Hrun & _).
    rewrite Hrun. exists c, w1, w'. split; [reflexivity|]. split; [reflexivity|].
    split; [rewrite Hlabel; discriminate | intros _; exact Hrun].
  - exists c, w1, w1. split; [reflexivity|]. split; [reflexivity|].
    split; [reflexivity | rewrite Hlabel; discriminate].
Qed.

Lemma classification_request_answered_witness :
  exists c w1 w',
    classifyText (Samples.toxic_worker (7 # 10)) Samples.insult Samples.world0
    = (Returned c, w1)
    /\ handleClassificationRequest (Samples.toxic_worker (7 # 10))
         {| text := JsString Samples.insult; elementId := "hs-ext-1700000000000-1" |}
         Samples.world0
       = (Returned {| success := true; classification := Some c;
                      response_elementId := "hs-ext-1700000000000-1"; error := None;
                      originalText := Some Samples.insult |}, w')
    /\ (label c = label_normal -> w' = w1)
    /\ (label c = label_hateful -> storeDetection Samples.insult c w1 = (Returned tt, w')).
Proof.
  apply (classification_request_answered (Samples.toxic_worker (7 # 10))
           Samples.insult "hs-ext-1700000000000-1" Samples.world0).
  discriminate.
Defined.

End EngineLaws.

(** ** The settings of the worker *)

Module SettingsLaws.
Import ModelConfig Chrome BackgroundServiceWorker Spec.

(** X19.  Settings written by [saveSettings] are the settings that
    [loadSettings] reads back, in any worker, when the write and the read
    go through; loading changes no other field of the worker. *)
Theorem settings_round_trip this other s :
  quiet 2 (sync_faults s) = true ->
  settings (loadSettings other (saveSettings this s)).1 = settings this
  /\ classifier (loadSettings other (saveSettings this s)).1 = classifier other
  /\ isModelLoaded (loadSettings other (saveSettings this s)).1 = isModelLoaded other
  /\ isModelLoading (loadSettings other (saveSettings this s)).1 = isModelLoading other.
Proof.
  destruct s as [store f]. destruct this as [[e c m] cl l1 l2]. cbn [sync_faults].
  destruct f as [|[e1|] [|[e2|] f]]; cbn [quiet take forallb andb];
    solve [discriminate | intros _; repeat split].
Qed.

Lemma settings_round_trip_witness :
  settings
    (loadSettings initial
       (saveSettings (with_confidence initial (9 # 10))
          {| sync := {| sync_enabled := None; sync_confidence := None;
                        sync_selectedModel := None |};
             sync_faults := [] |})).1
  = settings (with_confidence initial (9 # 10))
  /\ classifier
       (loadSettings initial
          (saveSettings (with_confidence initial (9 # 10))
             {| sync := {| sync_enabled := None; sync_confidence := None;
                           sync_selectedModel := None |};
                sync_faults := [] |})).1
     = classifier initial
  /\ isModelLoaded
       (loadSettings initial
          (saveSettings (with_confidence initial (9 # 10))
             {| sync := {| sync_enabled := None; sync_confidence := None;
                           sync_selectedModel := None |};
                sync_faults := [] |})).1
     = isModelLoaded initial
  /\ isModelLoading
       (loadSettings initial
          (saveSettings (with_confidence initial (9 # 10))
             {| sync := {| sync_enabled := None; sync_confidence := None;
                           sync_selectedModel := None |};
                sync_faults := [] |})).1
     = isModelLoading initial.
Proof.
  apply (settings_round_trip (with_confidence initial (9 # 10)) initial
           {| sync := {| sync_enabled := None; sync_confidence := None;
                         sync_selectedModel := None |};
              sync_faults := [] |}).
  reflexivity.
Defined.

(** X20.  [handleSettingsUpdate] answers [success: true] whether or not
    the settings could be saved: a rejected write leaves the synced store
    as it was while the worker already uses the merged settings.  The
    update never touches the model: the classifier and the loading flags
    are unchanged, and once a model is loaded [loadAIModel] does nothing,
    also after another model has been selected.  A key that the update
    does not carry keeps its value. *)
Theorem settings_update_outcome this update s :
  (handleSettingsUpdate this update s).1.2 = true
  /\ classifier (handleSettingsUpdate this update s).1.1 = classifier this
  /\ isModelLoaded (handleSettingsUpdate this update s).1.1 = isModelLoaded this
  /\ isModelLoading (handleSettingsUpdate this update s).1.1 = isModelLoading this
  /\ (isModelLoaded this = true ->
      forall pipeline,
        loadAIModel pipeline (handleSettingsUpdate this update s).1.1
        = (handleSettingsUpdate this update s).1.1)
  /\ (forall m, new_selectedModel update = Some m ->
        selectedModel (settings (handleSettingsUpdate this update s).1.1) = m)
  /\ (new_selectedModel update = None ->
        selectedModel (settings (handleSettingsUpdate this update s).1.1)
        = selectedModel (settings this))
  /\ (new_confidence update = None ->
        confidence (settings (handleSettingsUpdate this update s).1.1)
        = confidence (settings this))
  /\ (new_enabled update = None ->
        enabled (settings (handleSettingsUpdate this update s).1.1)
        = enabled (settings this))
  /\ (forall e rest, sync_faults s = Some e :: rest ->
        sync (handleSettingsUpdate this update s).2 = sync s)
  /\ (quiet 2 (sync_faults s) = true ->
      forall other,
        settings (loadSettings other (handleSettingsUpdate this update s).2).1
        = settings (handleSettingsUpdate this update s).1.1).
Proof.
  unfold handleSettingsUpdate. cbn [fst snd classifier isModelLoaded isModelLoading settings].
  repeat (split; [reflexivity|]). split.
  { intros Hl pipeline. unfold loadAIModel. cbn [isModelLoaded isModelLoading].
    rewrite Hl, orb_true_r. reflexivity. }
  split; [intros m H; unfold merge; cbn [selectedModel]; rewrite H; reflexivity|].
  split; [intros H; unfold merge; cbn [selectedModel]; rewrite H; reflexivity|].
  split; [intros H; unfold merge; cbn [confidence]; rewrite H; reflexivity|].
  split; [intros H; unfold merge; cbn [enabled]; rewrite H; reflexivity|].
  split.
  - intros e rest Hf. destruct s as [store f]. cbn [sync_faults] in Hf. subst f.
    reflexivity.
  - intros Hq other. destruct s as [store f]. cbn [sync_faults] in Hq.
    destruct f as [|[e1|] [|[e2|] f]]; cbn [quiet take forallb andb] in Hq;
      solve [discriminate | reflexivity].
Qed.

End SettingsLaws.

(** ** Preprocessing *)

Module PreprocessLaws.
Import JsString ModelConfig Spec Terms PreprocessFacts.

Lemma preprocessText_eq text :
  preprocessText text =
  if (512 <? String.length (trim (replaceSpaces false (replaceUrls false text))))%nat
  then String.substring 0 512 (trim (replaceSpaces false (replaceUrls false text)))
  else trim (replaceSpaces false (replaceUrls false text)).
Proof. reflexivity. Qed.

(** *** Texts that the steps leave alone *)

Lemma replaceUrls_fixed s : has_url s = false -> replaceUrls false s = s.
Proof.
  induction s as [|c s IH]; [reflexivity|]. cbn [has_url replaceUrls]. intros H.
  apply orb_false_iff in H as [Hu Hs]. rewrite Hu, (IH Hs). reflexivity.
Qed.

Lemma replaceSpaces_fixed s :
  forall inRun,
    plain s = true -> has_space_run s = false ->
    (inRun = true -> starts_with_space s = false) ->
    replaceSpaces inRun s = s.
Proof.
  induction s as [|c s IH]; intros inRun Hp Hr Hi; [reflexivity|].
  cbn [plain has_space_run replaceSpaces starts_with_space] in *.
  apply andb_true_iff in Hp as [Hc Hp]. apply orb_false_iff in Hr as [Hcs Hr].
  destruct (is_space c) eqn:Hsp; cbn [negb orb andb] in *.
  - destruct inRun; [specialize (Hi eq_refl); discriminate|].
    apply Ascii.eqb_eq in Hc. subst c. rewrite (IH true Hp Hr); [reflexivity|].
    intros _. exact Hcs.
  - rewrite (IH false Hp Hr); [reflexivity | discriminate].
Qed.

Lemma trimStart_fixed s : starts_with_space s = false -> trimStart s = s.
Proof. destruct s as [|c s]; [reflexivity|]. cbn. intros ->. reflexivity. Qed.

Lemma trimEnd_fixed s : ends_with_space s = false -> trimEnd s = s.
Proof.
  induction s as [|c s IH]; [reflexivity|]. rewrite trimEnd_cons.
  destruct s as [|d s].
  - cbn [ends_with_space trimEnd]. intros ->. reflexivity.
  - intros H. change (ends_with_space (String c (String d s)))
      with (ends_with_space (String d s)) in H.
    rewrite (IH H). reflexivity.
Qed.

(** *** The result has spaces as its only whitespace *)

Lemma plain_replaceSpaces s : forall inRun, plain (replaceSpaces inRun s) = true.
Proof.
  induction s as [|c s IH]; intros inRun; [reflexivity|]. cbn [replaceSpaces].
  destruct (is_space c) eqn:Hc.
  - destruct inRun; [apply IH|]. cbn [plain]. rewrite IH. reflexivity.
  - cbn [plain]. rewrite Hc, IH. reflexivity.
Qed.

Lemma plain_trimStart s : plain s = true -> plain (trimStart s) = true.
Proof.
  induction s as [|c s IH]; [reflexivity|]. cbn [trimStart]. intros H.
  destruct (is_space c); [|exact H].
  cbn [plain] in H. apply andb_true_iff in H as [_ H]. apply IH, H.
Qed.

Lemma plain_trimEnd s : plain s = true -> plain (trimEnd s) = true.
Proof.
  induction s as [|c s IH]; [reflexivity|]. rewrite trimEnd_cons. intros H.
  cbn [plain] in H. apply andb_true_iff in H as [Hc H].
  destruct (trimEnd s) eqn:E.
  - destruct (is_space c) eqn:Hsp; [reflexivity|]. cbn [plain]. rewrite Hsp. reflexivity.
  - cbn [plain] in *. rewrite Hc. apply IH, H.
Qed.

Lemma plain_substring n s : plain s = true -> plain (String.substring 0 n s) = true.
Proof.
  revert s. induction n as [|n IH]; intros [|c s]; cbn [String.substring]; try reflexivity.
  cbn [plain]. intros H. apply andb_true_iff in H as [Hc H]. rewrite Hc, (IH s H).
  reflexivity.
Qed.

Lemma plain_preprocessText text : plain (preprocessText text) = true.
Proof.
  rewrite preprocessText_eq.
  assert (H : plain (trim (replaceSpaces false (replaceUrls false text))) = true)
    by (apply plain_trimEnd, plain_trimStart, plain_replaceSpaces).
  destruct (_ <? _)%nat; [apply plain_substring, H | exact H].
Qed.

Lemma settled_preprocessText text :
  settled (preprocessText text) /\ (String.length (preprocessText text) <= 512)%nat.
Proof.
  rewrite preprocessText_eq. destruct (settled_normalised text) as [Hs _].
  destruct (_ <? _)%nat eqn:Hlen.
  - split; [apply settled_substring, Hs | apply length_substring_le].
  - apply Nat.ltb_ge in Hlen. split; [exact Hs | exact Hlen].
Qed.

Lemma length_trimEnd_le s : (String.length (trimEnd s) <= String.length s)%nat.
Proof.
  induction s as [|c s IH]; [reflexivity|]. rewrite trimEnd_cons.
  destruct (trimEnd s); [destruct (is_space c)|]; cbn [String.length] in *; lia.
Qed.

(** X21.  [preprocessText] returns unchanged a text that holds no URL, has
    spaces as its only whitespace, none of them first, last or next to
    another, and has at most 512 characters. *)
Theorem preprocessText_fixed s :
  has_url s = false ->
  plain s = true ->
  has_space_run s = false ->
  starts_with_space s = false ->
  ends_with_space s = false ->
  (String.length s <= 512)%nat ->
  preprocessText s = s.
Proof.
  intros Hu Hp Hr Hs He Hlen. rewrite preprocessText_eq.
  rewrite (replaceUrls_fixed s Hu), (replaceSpaces_fixed s false Hp Hr) by discriminate.
  unfold trim. rewrite (trimStart_fixed s Hs), (trimEnd_fixed s He).
  apply Nat.ltb_ge in Hlen. rewrite Hlen. reflexivity.
Qed.

Lemma preprocessText_fixed_witness :
  preprocessText "you are an idiot and i hate this" = "you are an idiot and i hate this".
Proof.
  apply (preprocessText_fixed "you are an idiot and i hate this");
    solve [reflexivity | cbn; lia].
Defined.

(** X22.  Preprocessing twice gives the result of preprocessing once
    whenever the first result does not end with whitespace; in every case a
    third pass does not change the result of the second. *)
Theorem preprocessText_idempotent text :
  (ends_with_space (preprocessText text) = false ->
   preprocessText (preprocessText text) = preprocessText text)
  /\ preprocessText (preprocessText (preprocessText text))
     = preprocessText (preprocessText text).
Proof.
  assert (Hfix : forall t, ends_with_space (preprocessText t) = false ->
                           preprocessText (preprocessText t) = preprocessText t).
  { intros t He. destruct (settled_preprocessText t) as [(Hu & Hr & Hs) Hlen].
    rewrite (preprocessText_eq (preprocessText t)).
    rewrite (replaceUrls_fixed _ Hu),
      (replaceSpaces_fixed _ false (plain_preprocessText t) Hr) by discriminate.
    unfold trim. rewrite (trimStart_fixed _ Hs), (trimEnd_fixed _ He).
    apply Nat.ltb_ge in Hlen. rewrite Hlen. reflexivity. }
  split; [apply Hfix|]. apply Hfix.
  destruct (settled_preprocessText text) as [(Hu & Hr & Hs) Hlen].
  rewrite (preprocessText_eq (preprocessText text)).
  rewrite (replaceUrls_fixed _ Hu),
    (replaceSpaces_fixed _ false (plain_preprocessText text) Hr) by discriminate.
  unfold trim. rewrite (trimStart_fixed _ Hs).
  assert (Hle : (String.length (trimEnd (preprocessText text)) <= 512)%nat).
  { pose proof (length_trimEnd_le (preprocessText text)). lia. }
  apply Nat.ltb_ge in Hle. rewrite Hle. apply ends_trimEnd.
Qed.

(** *** Blank texts *)

Lemma replaceUrls_blank t : every is_space t = true -> replaceUrls false t = t.
Proof.
  induction t as [|c t IH]; [reflexivity|]. cbn [every]. intros H.
  apply andb_true_iff in H as [Hc Ht]. cbn [replaceUrls].
  rewrite (url_at_space c t Hc), (IH Ht). reflexivity.
Qed.

Lemma trimStart_replaceSpaces_blank t :
  every is_space t = true -> forall inRun, trimStart (replaceSpaces inRun t) = EmptyString.
Proof.
  induction t as [|c t IH]; intros H inRun; [reflexivity|]. cbn [every] in H.
  apply andb_true_iff in H as [Hc Ht]. cbn [replaceSpaces]. rewrite Hc.
  destruct inRun; [apply IH, Ht|]. cbn [trimStart]. rewrite space_is_space. apply IH, Ht.
Qed.

(** X23.  A text that holds nothing but whitespace, the empty text
    included, is preprocessed to the empty text. *)
Theorem preprocessText_blank t :
  every is_space t = true -> preprocessText t = EmptyString.
Proof.
  intros H. rewrite preprocessText_eq, (replaceUrls_blank t H). unfold trim.
  rewrite (trimStart_replaceSpaces_blank t H false). reflexivity.
Qed.

Lemma preprocessText_blank_witness :
  preprocessText (String " " (String (ascii_of_nat 9) (String (ascii_of_nat 10) " ")))
  = EmptyString.
Proof.
  apply (preprocessText_blank
           (String " " (String (ascii_of_nat 9) (String (ascii_of_nat 10) " ")))).
  reflexivity.
Defined.

End PreprocessLaws.

(** ** The content script *)

Module ContentLaws.
Import JsString ContentScript Spec Terms ContentFacts.

Lemma fold_left_preserves {S B} (f : S -> B -> S) (I : S -> Prop) (cs : list B) :
  Forall (fun c => forall acc, I acc -> I (f acc c)) cs ->
  forall acc, I acc -> I (fold_left f cs acc).
Proof.
  induction 1 as [|c cs Hc _ IH]; intros acc Hacc; cbn [fold_left]; auto.
Qed.

(** *** What the walk collects *)

Lemma walk_eligible this node :
  forall ancestors acc e,
    In e (walk this ancestors node acc) ->
    In e acc \/ exists anc, isTextElement this anc e.1 e.2 = true.
Proof.
  induction node as [data|parent childNodes IH] using Node_induction;
    intros ancestors acc e He; cbn [walk] in He; [left; exact He|].
  revert acc e He. apply fold_left_either.
  eapply List.Forall_impl; [|exact IH].
  intros [data|el ch] Hchild acc0 e0 He0.
  - unfold consider in He0.
    destruct (acceptNode _ _ _ _ _ && isTextElement this ancestors parent childNodes
              && _) eqn:E; [|left; exact He0].
    apply in_app_or in He0 as [He0|[<-|[]]]; [left; exact He0|].
    right. apply andb_true_iff in E as [E _]. apply andb_true_iff in E as [_ E].
    exists ancestors. exact E.
  - eapply Hchild, He0.
Qed.

Lemma isTextElement_parts this ancestors element childNodes :
  isTextElement this ancestors element childNodes = true ->
  (10 <= String.length (trim (text_of element childNodes)) <= 2000)%nat
  /\ In (tagName element) textElementTypes
  /\ ~ In (tagName element) nonContentTypes
  /\ isElementVisible element = true
  /\ processed this (ref element) = false.
Proof.
  intros H. destruct (isTextElement_processed _ _ _ _ H) as (Hp & _ & _).
  unfold isTextElement in H.
  repeat (apply andb_true_iff in H as [H ?]).
  repeat match goal with
         | X : negb _ = true |- _ => apply negb_true_iff in X
         | X : (_ <=? _)%nat = true |- _ => apply Nat.leb_le in X
         end.
  split; [lia|]. split; [|split; [|split; assumption]].
  - match goal with
    | X : existsb _ textElementTypes = true |- _ =>
        apply List.existsb_exists in X as (x & Hin & Heq)
    end.
    apply String.eqb_eq in Heq. rewrite Heq. exact Hin.
  - intros Hin.
    match goal with
    | X : existsb _ nonContentTypes = false |- _ =>
        assert (existsb (String.eqb (tagName element)) nonContentTypes = true);
        [|congruence]
    end.
    apply List.existsb_exists. exists (tagName element). split; [exact Hin|].
    apply String.eqb_refl.
Qed.

Lemma NoDup_snoc {A} (l : list A) x : ~ In x l -> List.NoDup l -> List.NoDup (l ++ [x]).
Proof.
  intros Hx Hl. rewrite <- Permutation_cons_append. constructor; assumption.
Qed.

Lemma consider_NoDup this ancestors parent childNodes data acc :
  List.NoDup (map (fun el => ref el.1) acc) ->
  List.NoDup (map (fun el => ref el.1) (consider this ancestors parent childNodes data acc)).
Proof.
  intros H. unfold consider.
  destruct (acceptNode _ _ _ _ _ && isTextElement _ _ _ _) ; cbn [andb]; [|exact H].
  destruct (includes_element acc parent) eqn:E; cbn [negb]; [exact H|].
  rewrite map_app. cbn [map fst]. apply NoDup_snoc; [|exact H].
  intros Hin. apply List.in_map_iff in Hin as (e & Hr & He).
  assert (includes_element acc parent = true); [|congruence].
  unfold includes_element. apply List.existsb_exists. exists e. split; [exact He|].
  apply Nat.eqb_eq. exact Hr.
Qed.

Lemma walk_NoDup this node :
  forall ancestors acc,
    List.NoDup (map (fun el => ref el.1) acc) ->
    List.NoDup (map (fun el => ref el.1) (walk this ancestors node acc)).
Proof.
  induction node as [data|parent childNodes IH] using Node_induction;
    intros ancestors acc Hacc; cbn [walk]; [exact Hacc|].
  revert acc Hacc.
  apply (fold_left_preserves _ (fun acc => List.NoDup (map (fun el => ref el.1) acc))).
  eapply List.Forall_impl; [|exact IH].
  intros [data|el ch] Hchild acc0 H0.
  - apply consider_NoDup, H0.
  - apply Hchild, H0.
Qed.

Lemma findTextElements_eligible this ancestors node el :
  In el (findTextElements this ancestors node) ->
  (10 <= String.length (trim (text_of el.1 el.2)) <= 2000)%nat
  /\ In (tagName el.1) textElementTypes
  /\ ~ In (tagName el.1) nonContentTypes
  /\ isElementVisible el.1 = true
  /\ processed this (ref el.1) = false.
Proof.
  intros Hin. unfold findTextElements in Hin.
  apply walk_eligible in Hin as [[]|(anc & Hel)].
  eapply isTextElement_parts, Hel.
Qed.

(** X24.  Every element that [findTextElements] returns has, once
    trimmed, a text of 10 to 2000 characters, carries a tag of the text
    element list and none of the excluded tags, is visible, and is not yet
    processed; no element is returned twice. *)
Theorem findTextElements_sound this ancestors node :
  Forall (fun el =>
            (10 <= String.length (trim (text_of el.1 el.2)) <= 2000)%nat
            /\ In (tagName el.1) textElementTypes
            /\ ~ In (tagName el.1) nonContentTypes
            /\ isElementVisible el.1 = true
            /\ processed this (ref el.1) = false)
    (findTextElements this ancestors node)
  /\ List.NoDup (map (fun el => ref el.1) (findTextElements this ancestors node)).
Proof.
  split.
  - apply List.Forall_forall. intros el Hin.
    apply (findTextElements_eligible this ancestors node el Hin).
  - apply walk_NoDup. constructor.
Qed.

(** *** Batches *)






(** *** The observer *)

Lemma onMutations_eq this mutations :
  onMutations this mutations =
  if isEnabled this
  then fold_left (fun this node => processNewNode this node.1 node.2) (added mutations) this
  else this.
Proof.
  unfold onMutations, added. destruct (isEnabled this); cbn [negb]; [|reflexivity].
  revert this. induction mutations as [|m ms IH]; intros this; [reflexivity|].
  cbn [fold_left flat_map]. rewrite IH, fold_left_app.
  destruct (mutation_type m); reflexivity.
Qed.

Lemma nodes_grow nodes :
  forall this,
    grows this (fold_left (fun this node => processNewNode this node.1 node.2) nodes this).
Proof.
  induction nodes as [|node nodes IH]; intros this; [apply grows_refl|].
  cbn [fold_left]. eapply grows_trans; [|apply IH]. apply processAll_grows.
Qed.

Lemma processNewNode_settled this that ancestors node :
  grows (processNewNode this ancestors node) that ->
  processNewNode that ancestors node = that.
Proof.
  intros H. unfold processNewNode at 1.
  assert (Hnone : findTextElements that ancestors node = []).
  { unfold findTextElements. apply (walk_settled this that node) with (acc := []).
    - eapply grows_trans; [|exact H]. apply processAll_grows.
    - intros e He. apply H. unfold processNewNode, findTextElements.
      apply processAll_marks; [|exact He].
      intros x Hx. apply walk_found in Hx as [[]|Hx]. exact Hx. }
  rewrite Hnone. reflexivity.
Qed.

Lemma nodes_settled nodes :
  forall this that,
    grows (fold_left (fun this node => processNewNode this node.1 node.2) nodes this) that ->
    fold_left (fun this node => processNewNode this node.1 node.2) nodes that = that.
Proof.
  induction nodes as [|node nodes IH]; intros this that H; [reflexivity|].
  cbn [fold_left] in *.
  rewrite (processNewNode_settled this that node.1 node.2).
  - apply (IH _ that H).
  - eapply grows_trans; [|exact H]. apply nodes_grow.
Qed.

(** *** The requests that are sent *)

Lemma sends_more_refl P this : sends_more P this this.
Proof.
  exists []. rewrite app_nil_r, Nat.add_0_r. repeat split. constructor.
Qed.

Lemma sends_more_trans P a b c : sends_more P a b -> sends_more P b c -> sends_more P a c.
Proof.
  intros (n1 & H1 & H2 & H3 & H4) (n2 & K1 & K2 & K3 & K4). exists (n1 ++ n2).
  rewrite K1, H1, K2, H2, K4, H4, length_app, app_assoc.
  repeat split; [lia|]. apply Forall_app. split; assumption.
Qed.

Lemma starts_trim s : starts_with_space (trim s) = false.
Proof.
  unfold trim. destruct (starts_with_space (trimEnd (trimStart s))) eqn:E; [|reflexivity].
  apply PreprocessFacts.starts_trimEnd in E.
  rewrite PreprocessFacts.starts_trimStart in E. discriminate.
Qed.

Lemma processTextElement_sends this el :
  (10 <= String.length (trim (text_of el.1 el.2)) <= 2000)%nat ->
  sends_more request_ok this (processTextElement this el).
Proof.
  intros Hlen.
  destruct (processTextElement_cases this el) as [[-> _]|(uniqueId & Hne & _ & ->)];
    [apply sends_more_refl|].
  exists [ {| text := trim (text_of el.1 el.2); elementId := uniqueId |} ].
  cbn [classifyText mark sent uniqueIdCounter isEnabled length].
  split; [reflexivity|]. split; [lia|]. split; [|reflexivity].
  constructor; [|constructor]. unfold request_ok. cbn [text elementId].
  split; [exact Hlen|]. split; [apply starts_trim|].
  split; [apply PreprocessFacts.ends_trimEnd|].
  intros ->. discriminate.
Qed.

Lemma processAll_sends elements :
  forall this,
    (forall el, In el elements ->
                (10 <= String.length (trim (text_of el.1 el.2)) <= 2000)%nat) ->
    sends_more request_ok this (processAll this elements).
Proof.
  induction elements as [|el elements IH]; intros this H; [apply sends_more_refl|].
  cbn [processAll fold_left].
  eapply sends_more_trans; [apply processTextElement_sends, H; left; reflexivity|].
  apply IH. intros x Hx. apply H. right. exact Hx.
Qed.

Lemma processNewNode_sends this ancestors node :
  sends_more request_ok this (processNewNode this ancestors node).
Proof.
  apply processAll_sends. intros el Hin.
  apply (findTextElements_eligible this ancestors node el Hin).
Qed.

Lemma processTextElement_sends_min this el :
  sends_more request_min this (processTextElement this el).
Proof.
  unfold processTextElement.
  destruct (String.length (trim (text_of el.1 el.2)) <? 10)%nat eqn:Hlen;
    cbn [orb]; [apply sends_more_refl|].
  destruct (has_hsExtId this (ref el.1)); [apply sends_more_refl|].
  apply Nat.ltb_ge in Hlen. eexists [_].
  cbn [classifyText mark sent uniqueIdCounter isEnabled length].
  split; [reflexivity|]. split; [lia|]. split; [|reflexivity].
  constructor; [|constructor]. unfold request_min. cbn [text elementId].
  split; [exact Hlen|]. split; [apply starts_trim|].
  split; [apply PreprocessFacts.ends_trimEnd | discriminate].
Qed.

Lemma processAll_sends_min elements :
  forall this, sends_more request_min this (processAll this elements).
Proof.
  induction elements as [|el elements IH]; intros this; [apply sends_more_refl|].
  cbn [processAll fold_left].
  eapply sends_more_trans; [apply processTextElement_sends_min | apply IH].
Qed.

(** X27.  Handing to the observer callback a batch of mutations that it has
    handled already changes nothing: no element is marked and no request
    is sent a second time, also when other elements were processed in
    between.  While the extension is disabled the callback does nothing
    at all. *)
Theorem observer_replay this mutations :
  onMutations (onMutations this mutations) mutations = onMutations this mutations
  /\ (forall that,
        grows (onMutations this mutations) that ->
        isEnabled this = true ->
        onMutations that mutations = that)
  /\ (isEnabled this = false -> onMutations this mutations = this).
Proof.
  assert (Hlater : forall that,
            grows (onMutations this mutations) that ->
            isEnabled this = true ->
            onMutations that mutations = that).
  { intros that Hg He. rewrite onMutations_eq, He in Hg.
    rewrite (onMutations_eq that). destruct (isEnabled that); [|reflexivity].
    apply (nodes_settled (added mutations) this that Hg). }
  split; [|split; [exact Hlater|]].
  - destruct (isEnabled this) eqn:He.
    + apply Hlater; [apply grows_refl | reflexivity].
    + rewrite (onMutations_eq this), He, onMutations_eq, He. reflexivity.
  - intros He. rewrite onMutations_eq, He. reflexivity.
Qed.

(** X28.  Every request that the observer callback sends carries a
    trimmed text of 10 to 2000 characters and an element id that is not
    empty.  Every request that a run of [processBatch] sends, on whatever
    page and with whatever the elements of the array read by then, carries
    a trimmed text of at least 10 characters and an element id that is not
    empty; its length is not bounded from above.  In both cases the
    counter of ids advances by one for each request sent and the switch of
    the extension is not changed. *)
Theorem requests_well_formed this mutations elements batchSize index :
  sends_more request_ok this (onMutations this mutations)
  /\ sends_more request_min this (processBatch this elements batchSize index).1.1.
Proof.
  split.
  - rewrite onMutations_eq. destruct (isEnabled this); [|apply sends_more_refl].
    generalize (added mutations). intros nodes. revert this.
    induction nodes as [|node nodes IH]; intros this; [apply sends_more_refl|].
    cbn [fold_left]. eapply sends_more_trans; [apply processNewNode_sends | apply IH].
  - apply processAll_sends_min.
Qed.

(** X26.  The startup sweep does nothing while the extension is disabled
    or when the scan of the body finds no element.  Otherwise its first
    run, made at once, processes the first five elements found, and every
    request sent in it carries a trimmed text of 10 to 2000 characters;
    when the scan finds at most five elements, that run does what
    [processNewNode] does on the body, and no timer callback is
    scheduled. *)
Theorem startup_sweep this body later :
  (isEnabled this = false -> processExistingContent this body later = [])
  /\ (findTextElements this [] body = [] -> processExistingContent this body later = [])
  /\ (isEnabled this = true ->
      findTextElements this [] body <> [] ->
      exists rest,
        processExistingContent this body later
        = (processAll this (take 5 (findTextElements this [] body)), 5%nat,
           (5 <? length (findTextElements this [] body))%nat) :: rest
        /\ sends_more request_ok this
             (processAll this (take 5 (findTextElements this [] body))))
  /\ (isEnabled this = true ->
      (0 < length (findTextElements this [] body) <= 5)%nat ->
      processExistingContent this body later
      = [(processNewNode this [] body, 5%nat, false)]).
Proof.
  unfold processExistingContent, processElementsInBatches.
  split; [intros ->; reflexivity|].
  split; [intros ->; destruct (negb (isEnabled this)); reflexivity|].
  split.
  - intros -> Hne. cbn [negb].
    destruct (findTextElements this [] body) as [|el found] eqn:E; [contradiction|].
    cbn [length Nat.ltb Nat.leb]. eexists. split; [reflexivity|].
    apply processAll_sends. intros x Hx.
    apply (findTextElements_eligible this [] body x). rewrite E.
    apply list_elem_of_In. apply list_elem_of_In in Hx. apply (subseteq_take 5), Hx.
  - intros -> [Hpos Hle]. cbn [negb]. unfold processNewNode.
    destruct (findTextElements this [] body) as [|el found] eqn:E;
      [cbn in Hpos; lia|].
    cbn [length Nat.ltb Nat.leb].
    assert (Hflag : (0 + 5 <? length (el :: found))%nat = false)
      by (apply Nat.ltb_ge; lia).
    destruct later as [|moment later]; unfold processBatch; cbn [timers snd];
      rewrite ?Hflag, take_ge by (cbn [drop]; lia); reflexivity.
Qed.

End ContentLaws.
